(** * playwright-auth-injector: a shallow embedding of the provider pipeline

    Sources embedded here:
    - [src/providers/firebase.ts]  ([FirebaseAuthProvider], [resetAdminInitialization],
                                    [SupabaseAuthProvider], and the current
                                    [injectAuth] that follows it);
    - [src/providers/index.ts]     ([providers], [getProvider]; unnamed/part_000);
    - [src/config.ts]              ([CONFIG_FILE_NAMES], [findConfigPath], [loadConfig],
                                    [validateConfig], [validateFirebaseConfig],
                                    [validateSupabaseConfig], [clearConfigCache]);
    - unnamed/part_002             (the registry-based [validateConfig]);
    - [src/index.ts]               (the earlier [injectAuth]);
    - [src/errors.ts]              (the error classes).

    JavaScript values are modelled by [Js.value]; numbers are the integral
    values the code manipulates (plus [NaN]), taken exactly (the code's
    numbers stay below 2^53). Effects (the two module-level flags, the
    clock, calls to the Admin SDK, to [fetch], to the file system and to the
    Playwright page) are modelled by a state/error monad over a [world]
    whose [trace] records every external call, newest first. *)

From Stdlib Require Import String Ascii List ZArith Bool Lia.
Set Warnings "-register-all".
Import ListNotations.
Open Scope string_scope.

(** ** JavaScript values *)
Module Js.

(** A number is an integral value taken exactly, or [NaN]. Doubles hold
    every integer of magnitude at most 2^53 exactly, so the model agrees
    with JavaScript as long as the values stay in that range; the
    properties about arithmetic below assume so where it matters. *)
Inductive number :=
| Num (z : Z)
| NaN.

Inductive value :=
| Undefined
| Null
| Bool (b : bool)
| Number (n : number)
| Str (s : string)
| Object (props : list (string * value))   (* own properties, insertion order *)
| Array (items : list value)
| Function (name : string).

(** [typeof v] *)
Definition typeof (v : value) : string :=
  match v with
  | Undefined => "undefined"
  | Null => "object"
  | Bool _ => "boolean"
  | Number _ => "number"
  | Str _ => "string"
  | Object _ | Array _ => "object"
  | Function _ => "function"
  end.

(** ToBoolean: the falsy values are [undefined], [null], [false], [0],
    [NaN] and [""]. *)
Definition truthy (v : value) : bool :=
  match v with
  | Undefined | Null => false
  | Bool b => b
  | Number (Num z) => negb (Z.eqb z 0)
  | Number NaN => false
  | Str s => negb (String.eqb s "")
  | Object _ | Array _ | Function _ => true
  end.

Fixpoint assoc (k : string) (ps : list (string * value)) : option value :=
  match ps with
  | [] => None
  | (k', v) :: ps' => if String.eqb k k' then Some v else assoc k ps'
  end.

(** Names reachable through [Object.prototype] from a plain object. *)
Definition object_prototype_keys : list string :=
  [ "constructor"; "hasOwnProperty"; "isPrototypeOf"; "propertyIsEnumerable";
    "toLocaleString"; "toString"; "valueOf"; "__defineGetter__";
    "__defineSetter__"; "__lookupGetter__"; "__lookupSetter__"; "__proto__" ].

(** Names reachable through [Array.prototype]. *)
Definition array_prototype_keys : list string :=
  [ "at"; "concat"; "copyWithin"; "entries"; "every"; "fill"; "filter"; "find";
    "findIndex"; "findLast"; "findLastIndex"; "flat"; "flatMap"; "forEach";
    "includes"; "indexOf"; "join"; "keys"; "lastIndexOf"; "map"; "pop"; "push";
    "reduce"; "reduceRight"; "reverse"; "shift"; "slice"; "some"; "sort";
    "splice"; "toLocaleString"; "toReversed"; "toSorted"; "toSpliced";
    "toString"; "unshift"; "values"; "with" ].

(** Names reachable through [String.prototype]. *)
Definition string_prototype_keys : list string :=
  [ "at"; "charAt"; "charCodeAt"; "codePointAt"; "concat"; "endsWith"; "includes";
    "indexOf"; "isWellFormed"; "lastIndexOf"; "localeCompare"; "match"; "matchAll";
    "normalize"; "padEnd"; "padStart"; "repeat"; "replace"; "replaceAll"; "search";
    "slice"; "split"; "startsWith"; "substr"; "substring"; "toLocaleLowerCase";
    "toLocaleUpperCase"; "toLowerCase"; "toString"; "toUpperCase"; "toWellFormed";
    "trim"; "trimEnd"; "trimStart"; "trimLeft"; "trimRight"; "valueOf"; "anchor";
    "big"; "blink"; "bold"; "fixed"; "fontcolor"; "fontsize"; "italics"; "link";
    "small"; "strike"; "sub"; "sup" ].

(** Names reachable through [Number.prototype] and [Boolean.prototype]. *)
Definition number_prototype_keys : list string :=
  [ "toExponential"; "toFixed"; "toLocaleString"; "toPrecision"; "toString"; "valueOf" ].

Definition boolean_prototype_keys : list string := [ "toString"; "valueOf" ].

(** Names reachable through [Function.prototype]. *)
Definition function_prototype_keys : list string :=
  [ "apply"; "bind"; "call"; "toString" ].

Definition mem (k : string) (ks : list string) : bool := existsb (String.eqb k) ks.

(** Lookup of an inherited name on [Object.prototype]: the methods are
    functions, [__proto__] is [Object.prototype] itself (an object). *)
Definition object_prototype_get (k : string) : value :=
  if String.eqb k "__proto__" then Object []
  else if mem k object_prototype_keys then Function k
  else Undefined.

Definition is_digit (c : ascii) : bool :=
  let n := nat_of_ascii c in (48 <=? n)%nat && (n <=? 57)%nat.

Definition digit_value (c : ascii) : Z := Z.of_nat (nat_of_ascii c - 48).

Fixpoint digits_value (acc : Z) (s : string) : Z :=
  match s with
  | EmptyString => acc
  | String c s' => digits_value (acc * 10 + digit_value c) s'
  end.

Fixpoint all_digits (s : string) : bool :=
  match s with
  | EmptyString => true
  | String c s' => is_digit c && all_digits s'
  end.

(** A canonical array index ("0", "1", ..., no leading zero). *)
Definition array_index (k : string) : option nat :=
  match k with
  | EmptyString => None
  | String c rest =>
      if all_digits k && (String.eqb rest "" || negb (Ascii.eqb c "0"%char))
      then Some (Z.to_nat (digits_value 0 k)) else None
  end.

(** [v] is [null] or [undefined]: reading a property of it throws a
    [TypeError]. *)
Definition nullish (v : value) : bool :=
  match v with Undefined | Null => true | _ => false end.

(** Property read [o[k]] (own property first, then the prototype chain).
    A primitive is read through its wrapper's prototype; a string's
    characters are its bytes, so [length] and the indices are those of
    JavaScript for ASCII text. A function value is one of the prototype
    methods, whose own [name] and [length] the code never reads. On
    [null] and [undefined] the read throws; [get] gives [undefined] there
    and every call site that can meet one tests [nullish] (or [typeof])
    first. *)
Definition get (o : value) (k : string) : value :=
  match o with
  | Object ps =>
      match assoc k ps with
      | Some v => v
      | None => object_prototype_get k
      end
  | Array xs =>
      if String.eqb k "length" then Number (Num (Z.of_nat (length xs)))
      else match array_index k with
           | Some i => nth i xs Undefined
           | None =>
               if mem k array_prototype_keys then Function k
               else object_prototype_get k
           end
  | Str s =>
      if String.eqb k "length" then Number (Num (Z.of_nat (String.length s)))
      else match array_index k with
           | Some i =>
               match String.get i s with
               | Some c => Str (String c EmptyString)
               | None => Undefined
               end
           | None =>
               if mem k string_prototype_keys then Function k
               else object_prototype_get k
           end
  | Number _ =>
      if mem k number_prototype_keys then Function k else object_prototype_get k
  | Bool _ =>
      if mem k boolean_prototype_keys then Function k else object_prototype_get k
  | Function _ =>
      if mem k function_prototype_keys then Function k else object_prototype_get k
  | Undefined | Null => Undefined
  end.

(** Own property test ([Object.hasOwn]) on an object. *)
Definition has_own (o : value) (k : string) : bool :=
  match o with
  | Object ps => match assoc k ps with Some _ => true | None => false end
  | _ => false
  end.

(** Arithmetic on numbers ([NaN] is absorbing). *)
Definition add (a b : number) : number :=
  match a, b with Num x, Num y => Num (x + y) | _, _ => NaN end.

Definition mul (a b : number) : number :=
  match a, b with Num x, Num y => Num (x * y) | _, _ => NaN end.

Definition digit_char (d : Z) : ascii := ascii_of_nat (48 + Z.to_nat d).

Fixpoint nat_digits (fuel : nat) (n : Z) (acc : string) : string :=
  match fuel with
  | O => acc
  | S fuel' =>
      let acc' := String (digit_char (n mod 10)) acc in
      if Z.eqb (n / 10) 0 then acc' else nat_digits fuel' (n / 10) acc'
  end.

(** Number::toString for an integral value. *)
Definition z_to_string (z : Z) : string :=
  let fuel := S (Z.to_nat (Z.log2 (Z.abs z))) in
  if Z.ltb z 0 then "-" ++ nat_digits fuel (- z) ""
  else nat_digits fuel z "".

Definition number_to_string (n : number) : string :=
  match n with Num z => z_to_string z | NaN => "NaN" end.

(** ToString. *)
Fixpoint to_string (v : value) : string :=
  match v with
  | Undefined => "undefined"
  | Null => "null"
  | Bool true => "true"
  | Bool false => "false"
  | Number n => number_to_string n
  | Str s => s
  | Object _ => "[object Object]"
  | Array xs =>
      (* Array.prototype.join with ",", null and undefined as "" *)
      (fix go (xs : list value) : string :=
         let elem x := match x with Undefined | Null => "" | _ => to_string x end in
         match xs with
         | [] => ""
         | [x] => elem x
         | x :: xs' => elem x ++ "," ++ go xs'
         end) xs
  | Function name => "function " ++ name ++ "() { [native code] }"
  end.

(** StrWhiteSpaceChar restricted to the one-byte characters
    (TAB, LF, VT, FF, CR, SP). *)
Definition is_space (c : ascii) : bool :=
  let n := nat_of_ascii c in (n =? 32)%nat || ((9 <=? n)%nat && (n <=? 13)%nat).

Fixpoint trim_start (s : string) : string :=
  match s with
  | String c s' => if is_space c then trim_start s' else s
  | EmptyString => EmptyString
  end.

Fixpoint digit_prefix (s : string) : string :=
  match s with
  | String c s' => if is_digit c then String c (digit_prefix s') else EmptyString
  | EmptyString => EmptyString
  end.

(** [parseInt(input, 10)]: ToString, skip leading white space, optional
    sign, then the longest run of decimal digits; [NaN] when it is empty. *)
Definition parseInt10 (input : value) : number :=
  let s := trim_start (to_string input) in
  let '(sign, rest) :=
    match s with
    | String "-" r => ((-1)%Z, r)
    | String "+" r => (1%Z, r)
    | _ => (1%Z, s)
    end in
  let ds := digit_prefix rest in
  if String.eqb ds "" then NaN else Num (sign * digits_value 0 ds).

End Js.

Import Js.

(** ** Errors ([src/errors.ts]) *)

Inductive AuthErrorCode :=
| CONFIG_NOT_FOUND
| CONFIG_INVALID
| AUTH_FAILED
| TOKEN_EXCHANGE_FAILED
| INJECTION_FAILED.

(** Every value the modelled code throws: the five [AuthError] subclasses
    and any other [Error] (the plain [Error] of [getProvider], a
    [TypeError], a rejection of a collaborator), by its message. A thrown
    value [v] that is not an [Error] is [PlainError (String(v))]: the
    handlers only test [instanceof] an [AuthError] class and read
    [error instanceof Error ? error.message : String(error)], on which the
    two agree. *)
Inductive exn :=
| ConfigNotFoundError (searchPaths : list string)
| ConfigInvalidError (message : string) (field : option string)
| AuthenticationError (message : string)
| TokenExchangeError (message : string) (statusCode : option Z)
| InjectionError (message : string)
| PlainError (message : string).

(** [error.code]: [None] for an [Error] that is not an [AuthError]. *)
Definition code (e : exn) : option AuthErrorCode :=
  match e with
  | ConfigNotFoundError _ => Some CONFIG_NOT_FOUND
  | ConfigInvalidError _ _ => Some CONFIG_INVALID
  | AuthenticationError _ => Some AUTH_FAILED
  | TokenExchangeError _ _ => Some TOKEN_EXCHANGE_FAILED
  | InjectionError _ => Some INJECTION_FAILED
  | PlainError _ => None
  end.

Fixpoint join (sep : string) (xs : list string) : string :=
  match xs with
  | [] => ""
  | [x] => x
  | x :: xs' => x ++ sep ++ join sep xs'
  end.

Definition newline : string := String (ascii_of_nat 10) EmptyString.

(** [error.message], with the message texts of [src/errors.ts]. *)
Definition message (e : exn) : string :=
  match e with
  | ConfigNotFoundError paths =>
      "設定ファイルが見つかりません。以下のパスを探しました:" ++ newline ++
      join newline (map (fun p => "  - " ++ p) paths)
  | ConfigInvalidError m (Some f) =>
      if String.eqb f "" then "設定エラー: " ++ m
      else "設定エラー [" ++ f ++ "]: " ++ m
  | ConfigInvalidError m None => "設定エラー: " ++ m
  | AuthenticationError m | TokenExchangeError m _ | InjectionError m
  | PlainError m => m
  end.

Inductive outcome (A : Type) :=
| Ok (a : A)
| Throw (e : exn).
Arguments Ok {A} a.
Arguments Throw {A} e.

(** ** [FirebaseAuthProvider.validateConfig] *)
Module FirebaseValidate.

Record FirebaseConfig := {
  serviceAccount : string;
  apiKey : string;
  uid : string
}.

(** The field check [!c.f || typeof c.f !== 'string'] fails exactly when
    this returns [None]; otherwise the (narrowed) string. *)
Definition string_field (v : value) : option string :=
  if negb (truthy v) || negb (String.eqb (typeof v) "string") then None
  else match v with Str s => Some s | _ => None end.

Definition validateConfig (config : value) : outcome FirebaseConfig :=
  if negb (truthy config) || negb (String.eqb (typeof config) "object") then
    Throw (ConfigInvalidError "firebase config is required" (Some "firebase"))
  else
    let c := config in
    match string_field (get c "serviceAccount") with
    | None =>
        Throw (ConfigInvalidError "serviceAccount must be a string"
                 (Some "firebase.serviceAccount"))
    | Some sa =>
        match string_field (get c "apiKey") with
        | None =>
            Throw (ConfigInvalidError "apiKey must be a string"
                     (Some "firebase.apiKey"))
        | Some ak =>
            match string_field (get c "uid") with
            | None =>
                Throw (ConfigInvalidError "uid must be a string"
                         (Some "firebase.uid"))
            | Some u => Ok {| serviceAccount := sa; apiKey := ak; uid := u |}
            end
        end
    end.

End FirebaseValidate.

(** ** Data the Firebase provider consumes and produces ([src/types.ts]) *)

(** [admin.auth.UserInfo]: the fields the payload copies. *)
Module AdminUserInfo.
Record t := {
  providerId : string;
  uid : string;
  displayName : option string;
  email : option string;
  phoneNumber : option string;
  photoURL : option string
}.
End AdminUserInfo.

(** [admin.auth.UserRecord]: the fields [createAuthData] reads
    ([metadata.creationTime] flattened to [creationTime]). *)
Module AdminUserRecord.
Record t := {
  email : option string;
  emailVerified : bool;
  providerData : list AdminUserInfo.t;
  creationTime : string
}.
End AdminUserRecord.

(** [ProviderUserInfo] *)
Module ProviderUserInfo.
Record t := {
  providerId : string;
  uid : string;
  displayName : option string;   (* [None] is [null] *)
  email : option string;
  phoneNumber : option string;
  photoURL : option string
}.
End ProviderUserInfo.

(** [FirebaseAuthUser['stsTokenManager']]. The token fields are copied from
    the REST response, which is cast without a check: they are JS values. *)
Record StsTokenManager := {
  accessToken : value;
  refreshToken : value;
  expirationTime : number
}.

(** [FirebaseAuthUser] *)
Module FirebaseAuthUser.
Record t := {
  uid : string;
  email : option string;
  emailVerified : bool;
  isAnonymous : bool;
  providerData : list ProviderUserInfo.t;
  stsTokenManager : StsTokenManager;
  createdAt : string;
  lastLoginAt : string;
  apiKey : string;
  appName : string
}.
End FirebaseAuthUser.

(** The argument of the injection script: [{ fbase_key, value }]. *)
Record AuthData := {
  fbase_key : string;
  value_ : FirebaseAuthUser.t
}.

(** An HTTP response of [fetch]: its status and the outcome of reading the
    body as text or as JSON ([inl] carries the rejection message). *)
Record Response := {
  status : Z;
  text_result : string + string;
  json_result : string + value
}.

Definition ok (r : Response) : bool := Z.leb 200 (status r) && Z.leb (status r) 299.

Inductive fetch_outcome :=
| FetchRejects (msg : string)           (* DNS, connection, TLS, ... *)
| FetchResponds (r : Response).

(** ** The world: module-level state, the clock and a trace of external calls *)

Inductive event :=
| EvJsonParse (text : string)
| EvInitializeApp (serviceAccount : value)
| EvCreateCustomToken (uid : string)
| EvFetch (url : string) (token : string)
| EvResponseText
| EvResponseJson
| EvGetUser (uid : string)
| EvDateNow
| EvAddInitScript (arg : AuthData)
| EvGoto (url : string)
| EvWaitForTimeout (ms : Z)
| EvExistsSync (path : string)
| EvImport (url : string).

Record world := {
  adminInitialized : bool;          (* [let adminInitialized] of firebase.ts *)
  cachedConfig : option value;      (* [let cachedConfig] of config.ts *)
  clock : Z;                        (* what [Date.now()] returns *)
  trace : list event                (* newest first *)
}.

(** The collaborators: the Admin SDK, [fetch], [Date], the Playwright page,
    [node:fs], [node:path], [node:url] and dynamic [import]. A failure is
    [inl message] (or [Some message]); a failing [import] throws whatever
    loading or evaluating the module throws, [AuthError]s included (the
    package exports those classes). *)
Record env := {
  json_parse : string -> string + value;
  initialize_app : value -> option string;       (* credential.cert + initializeApp *)
  create_custom_token : string -> string + string;
  fetch : string -> string -> fetch_outcome;
  get_user : string -> string + AdminUserRecord.t;
  date_parse : string -> number;                  (* new Date(s).getTime() *)
  add_init_script : AuthData -> option string;
  goto : string -> option string;
  wait_for_timeout : Z -> option string;
  exists_sync : string -> bool;
  import_module : string -> exn + value;          (* module.default, or what it throws *)
  path_resolve : string -> string -> string;
  path_to_file_url : string -> string
}.

(** *** A state and error monad over [world] *)
Definition M (A : Type) : Type := world -> outcome A * world.

Definition ret {A} (a : A) : M A := fun w => (Ok a, w).

Definition bind {A B} (m : M A) (k : A -> M B) : M B :=
  fun w => match m w with
           | (Ok a, w') => k a w'
           | (Throw e, w') => (Throw e, w')
           end.

Notation "x <- m ;; k" := (bind m (fun x => k))
  (at level 61, m at next level, right associativity).
Notation "m ;; k" := (bind m (fun _ => k)) (at level 61, right associativity).

Definition throw {A} (e : exn) : M A := fun w => (Throw e, w).

(** [try { m } catch (error) { h(error) }] *)
Definition try_catch {A} (m : M A) (h : exn -> M A) : M A :=
  fun w => match m w with
           | (Throw e, w') => h e w'
           | r => r
           end.

Definition get_world : M world := fun w => (Ok w, w).

(** The world after the external call [ev]. *)
Definition after (ev : event) (w : world) : world :=
  {| adminInitialized := adminInitialized w; cachedConfig := cachedConfig w;
     clock := clock w; trace := ev :: trace w |}.

Definition emit (ev : event) : M unit := fun w => (Ok tt, after ev w).

Definition set_adminInitialized (b : bool) : M unit :=
  fun w => (Ok tt, {| adminInitialized := b; cachedConfig := cachedConfig w;
                      clock := clock w; trace := trace w |}).

Definition set_cachedConfig (c : option value) : M unit :=
  fun w => (Ok tt, {| adminInitialized := adminInitialized w; cachedConfig := c;
                      clock := clock w; trace := trace w |}).

(** An external call: recorded in the trace, then its result; a rejection
    is thrown as a plain [Error] with that message. *)
Definition call {A} (ev : event) (r : string + A) : M A :=
  emit ev ;;
  match r with
  | inl msg => throw (PlainError msg)
  | inr a => ret a
  end.

(** An external call whose failure is an arbitrary thrown value. *)
Definition call_exn {A} (ev : event) (r : exn + A) : M A :=
  emit ev ;;
  match r with
  | inl e => throw e
  | inr a => ret a
  end.

Definition call_unit (ev : event) (r : option string) : M unit :=
  call ev (match r with Some msg => inl msg | None => inr tt end).

Definition date_now : M Z := emit EvDateNow ;; w <- get_world ;; ret (clock w).

(** ** [FirebaseAuthProvider] ([src/providers/firebase.ts]) *)
Module Firebase.
Import FirebaseValidate.

(** [InjectOptions] *)
Record InjectOptions := {
  debug : option bool;
  waitAfter : option Z
}.

(** [x || null] on an optional string *)
Definition or_null (o : option string) : option string :=
  match o with
  | Some s => if String.eqb s "" then None else Some s
  | None => None
  end.

Definition storage_key (apiKey : string) : string :=
  "firebase:authUser:" ++ apiKey ++ ":[DEFAULT]".

Section Provider.
Variable E : env.

(** [initializeAdmin] *)
Definition initializeAdmin (serviceAccountJson : string) : M unit :=
  w <- get_world ;;
  if adminInitialized w then ret tt else
  try_catch
    (serviceAccount <- call (EvJsonParse serviceAccountJson)
                             (json_parse E serviceAccountJson) ;;
     call_unit (EvInitializeApp serviceAccount) (initialize_app E serviceAccount) ;;
     set_adminInitialized true)
    (fun error =>
       throw (AuthenticationError
                ("Failed to initialize Firebase Admin SDK: " ++ message error))).

(** [createCustomToken] *)
Definition createCustomToken (uid : string) : M string :=
  try_catch
    (call (EvCreateCustomToken uid) (create_custom_token E uid))
    (fun error =>
       throw (AuthenticationError
                ("Failed to create custom token (UID: " ++ uid ++ "): " ++
                 message error))).

Definition exchange_url (apiKey : string) : string :=
  "https://identitytoolkit.googleapis.com/v1/accounts:signInWithCustomToken?key="
  ++ apiKey.

(** [await fetch(url, { method: 'POST', body: JSON.stringify({ token,
    returnSecureToken: true }) })]: the request is determined by the URL and
    the token. *)
Definition fetch_call (url token : string) : M Response :=
  call (EvFetch url token)
       (match fetch E url token with
        | FetchRejects msg => inl msg
        | FetchResponds r => inr r
        end).

(** [exchangeCustomToken]: the REST response is returned as parsed, cast
    to [FirebaseTokenResponse] without a check. *)
Definition exchangeCustomToken (customToken apiKey : string) : M value :=
  let url := exchange_url apiKey in
  try_catch
    (response <- fetch_call url customToken ;;
     if negb (ok response) then
       errorBody <- call EvResponseText (text_result response) ;;
       throw (TokenExchangeError ("Firebase REST API error: " ++ errorBody)
                                 (Some (status response)))
     else
       data <- call EvResponseJson (json_result response) ;;
       ret data)
    (fun error =>
       match error with
       | TokenExchangeError _ _ => throw error
       | _ => throw (TokenExchangeError
                       ("Token exchange request failed: " ++ message error) None)
       end).

(** [getUserRecord] *)
Definition getUserRecord (uid : string) : M AdminUserRecord.t :=
  try_catch
    (call (EvGetUser uid) (get_user E uid))
    (fun error =>
       throw (AuthenticationError
                ("Failed to get user info (UID: " ++ uid ++ "): " ++
                 message error))).

(** The object literal of [createAuthData], for the instant [now]. *)
Definition auth_data_at (uid apiKey : string) (tokenResponse : value)
    (userRecord : AdminUserRecord.t) (now : Z) : AuthData :=
  let expiresIn := mul (parseInt10 (get tokenResponse "expiresIn")) (Num 1000) in
  {| fbase_key := storage_key apiKey;
     value_ :=
       {| FirebaseAuthUser.uid := uid;
          FirebaseAuthUser.email := or_null (AdminUserRecord.email userRecord);
          FirebaseAuthUser.emailVerified := AdminUserRecord.emailVerified userRecord;
          FirebaseAuthUser.isAnonymous := false;
          FirebaseAuthUser.providerData :=
            map (fun p =>
                   {| ProviderUserInfo.providerId := AdminUserInfo.providerId p;
                      ProviderUserInfo.uid := AdminUserInfo.uid p;
                      ProviderUserInfo.displayName := or_null (AdminUserInfo.displayName p);
                      ProviderUserInfo.email := or_null (AdminUserInfo.email p);
                      ProviderUserInfo.phoneNumber := or_null (AdminUserInfo.phoneNumber p);
                      ProviderUserInfo.photoURL := or_null (AdminUserInfo.photoURL p) |})
                (AdminUserRecord.providerData userRecord);
          FirebaseAuthUser.stsTokenManager :=
            {| accessToken := get tokenResponse "idToken";
               refreshToken := get tokenResponse "refreshToken";
               expirationTime := add (Num now) expiresIn |};
          FirebaseAuthUser.createdAt :=
            let ct := AdminUserRecord.creationTime userRecord in
            if negb (String.eqb ct "")
            then number_to_string (date_parse E ct)
            else z_to_string now;
          FirebaseAuthUser.lastLoginAt := z_to_string now;
          FirebaseAuthUser.apiKey := apiKey;
          FirebaseAuthUser.appName := "[DEFAULT]" |} |}.

(** [createAuthData]: one read of [Date.now()], then
    [tokenResponse.expiresIn], which throws a [TypeError] when the
    response (the unchecked JSON body) is [null]. *)
Definition createAuthData (uid apiKey : string) (tokenResponse : value)
    (userRecord : AdminUserRecord.t) : M AuthData :=
  now <- date_now ;;
  if nullish tokenResponse then
    throw (PlainError ("Cannot read properties of " ++ to_string tokenResponse ++
                       " (reading 'expiresIn')"))
  else ret (auth_data_at uid apiKey tokenResponse userRecord now).

(** [inject]; the [console.log] calls under [debug] are omitted. *)
Definition inject (config : FirebaseConfig) (options : InjectOptions) : M unit :=
  let waitAfter := match waitAfter options with Some n => n | None => 2000%Z end in
  (* 1. *) initializeAdmin (serviceAccount config) ;;
  (* 2. *) customToken <- createCustomToken (uid config) ;;
  (* 3. *) tokenResponse <- exchangeCustomToken customToken (apiKey config) ;;
  (* 4. *) userRecord <- getUserRecord (uid config) ;;
  (* 5. *) authData <- createAuthData (uid config) (apiKey config) tokenResponse userRecord ;;
  (* 6. *) try_catch
             (call_unit (EvAddInitScript authData) (add_init_script E authData))
             (fun error =>
                throw (InjectionError
                         ("Failed to add IndexedDB injection script: " ++
                          message error))) ;;
  (* 7. *) try_catch (call_unit (EvGoto "/") (goto E "/")) (fun _ => ret tt) ;;
  (* 8. *) call_unit (EvWaitForTimeout waitAfter) (wait_for_timeout E waitAfter).

End Provider.

(** [resetAdminInitialization] *)
Definition resetAdminInitialization : M unit := set_adminInitialized false.

End Firebase.

(** ** End-to-end scenario A of the spec: a mocked Admin SDK, exchange
    response and profile. *)
Module ScenarioA.
Import FirebaseValidate.

Definition tokenResponse : value :=
  Object [("idToken", Str "T"); ("refreshToken", Str "R"); ("expiresIn", Str "3600")].

Definition profile : AdminUserRecord.t :=
  {| AdminUserRecord.email := Some "a@b.com";
     AdminUserRecord.emailVerified := true;
     AdminUserRecord.providerData := [];
     AdminUserRecord.creationTime := "" |}.

Definition mock_env : env :=
  {| json_parse := fun _ => inr (Object []);
     initialize_app := fun _ => None;
     create_custom_token := fun _ => inr "custom-token";
     fetch := fun _ _ => FetchResponds {| status := 200;
                                          text_result := inr "";
                                          json_result := inr tokenResponse |};
     get_user := fun u => if String.eqb u "u1" then inr profile
                          else inl "There is no user record";
     date_parse := fun _ => NaN;
     add_init_script := fun _ => None;
     goto := fun _ => None;
     wait_for_timeout := fun _ => None;
     exists_sync := fun _ => false;
     import_module := fun _ => inl (PlainError "Cannot find module");
     path_resolve := fun cwd name => cwd ++ "/" ++ name;
     path_to_file_url := fun p => "file://" ++ p |}.

Definition config : FirebaseConfig :=
  {| serviceAccount := "{}"; apiKey := "K"; uid := "u1" |}.

Definition options : Firebase.InjectOptions :=
  {| Firebase.debug := None; Firebase.waitAfter := None |}.

Definition issuedAtMs : Z := 1700000000000.

Definition world0 : world :=
  {| adminInitialized := false; cachedConfig := None; clock := issuedAtMs;
     trace := [] |}.

End ScenarioA.

(** A rejected exchange: the REST API answers 403 with a readable body. *)
Module ScenarioDenied.

Definition denied : Response :=
  {| status := 403; text_result := inr "PERMISSION_DENIED";
     json_result := inl "Unexpected token P in JSON at position 0" |}.

Definition env_denied : env :=
  {| json_parse := json_parse ScenarioA.mock_env;
     initialize_app := initialize_app ScenarioA.mock_env;
     create_custom_token := create_custom_token ScenarioA.mock_env;
     fetch := fun _ _ => FetchResponds denied;
     get_user := get_user ScenarioA.mock_env;
     date_parse := date_parse ScenarioA.mock_env;
     add_init_script := add_init_script ScenarioA.mock_env;
     goto := goto ScenarioA.mock_env;
     wait_for_timeout := wait_for_timeout ScenarioA.mock_env;
     exists_sync := exists_sync ScenarioA.mock_env;
     import_module := import_module ScenarioA.mock_env;
     path_resolve := path_resolve ScenarioA.mock_env;
     path_to_file_url := path_to_file_url ScenarioA.mock_env |}.

End ScenarioDenied.

(** A malformed service-account JSON: [JSON.parse] rejects it. *)
Module ScenarioBadServiceAccount.

Definition env_bad_json : env :=
  {| json_parse := fun _ => inl "Unexpected token } in JSON";
     initialize_app := initialize_app ScenarioA.mock_env;
     create_custom_token := create_custom_token ScenarioA.mock_env;
     fetch := fetch ScenarioA.mock_env;
     get_user := get_user ScenarioA.mock_env;
     date_parse := date_parse ScenarioA.mock_env;
     add_init_script := add_init_script ScenarioA.mock_env;
     goto := goto ScenarioA.mock_env;
     wait_for_timeout := wait_for_timeout ScenarioA.mock_env;
     exists_sync := exists_sync ScenarioA.mock_env;
     import_module := import_module ScenarioA.mock_env;
     path_resolve := path_resolve ScenarioA.mock_env;
     path_to_file_url := path_to_file_url ScenarioA.mock_env |}.

End ScenarioBadServiceAccount.

(** ** The configuration loader ([src/config.ts]) *)
Module Config.

(** [CONFIG_FILE_NAMES] *)
Definition CONFIG_FILE_NAMES : list string :=
  ["playwright-auth.config.ts"; "playwright-auth.config.js";
   "playwright-auth.config.mjs"].

(** [!v || typeof v !== 'string'] *)
Definition not_string (v : value) : bool :=
  negb (truthy v) || negb (String.eqb (typeof v) "string").

(** [!v || typeof v !== 'object'] *)
Definition not_object (v : value) : bool :=
  negb (truthy v) || negb (String.eqb (typeof v) "object").

(** [v === s] for a string literal [s] *)
Definition strict_eq_str (v : value) (s : string) : bool :=
  match v with Str s' => String.eqb s' s | _ => false end.

(** [validateFirebaseConfig] *)
Definition validateFirebaseConfig (firebase : value) : outcome unit :=
  if not_object firebase then
    Throw (ConfigInvalidError "firebase 設定が必要です" (Some "firebase"))
  else if not_string (get firebase "serviceAccount") then
    Throw (ConfigInvalidError "serviceAccount は文字列である必要があります"
                              (Some "firebase.serviceAccount"))
  else if not_string (get firebase "apiKey") then
    Throw (ConfigInvalidError "apiKey は文字列である必要があります" (Some "firebase.apiKey"))
  else if not_string (get firebase "uid") then
    Throw (ConfigInvalidError "uid は文字列である必要があります" (Some "firebase.uid"))
  else Ok tt.

(** [validateSupabaseConfig] *)
Definition validateSupabaseConfig (supabase : value) : outcome unit :=
  if not_object supabase then
    Throw (ConfigInvalidError "supabase 設定が必要です" (Some "supabase"))
  else if not_string (get supabase "url") then
    Throw (ConfigInvalidError "url は文字列である必要があります" (Some "supabase.url"))
  else if not_string (get supabase "anonKey") then
    Throw (ConfigInvalidError "anonKey は文字列である必要があります" (Some "supabase.anonKey"))
  else if not_string (get supabase "email") then
    Throw (ConfigInvalidError "email は文字列である必要があります" (Some "supabase.email"))
  else if not_string (get supabase "password") then
    Throw (ConfigInvalidError "password は文字列である必要があります"
                              (Some "supabase.password"))
  else Ok tt.

(** [validateConfig] *)
Definition validateConfig (config : value) : outcome unit :=
  if not_object config then
    Throw (ConfigInvalidError "設定はオブジェクトである必要があります" None)
  else
    let provider := get config "provider" in
    if negb (truthy provider) then
      Throw (ConfigInvalidError "provider は必須です" (Some "provider"))
    else if negb (strict_eq_str provider "firebase") &&
            negb (strict_eq_str provider "supabase") then
      Throw (ConfigInvalidError
               ("provider は 'firebase' または 'supabase' である必要があります。受け取った値: "
                ++ to_string provider) (Some "provider"))
    else if strict_eq_str provider "firebase" then
      validateFirebaseConfig (get config "firebase")
    else if strict_eq_str provider "supabase" then
      validateSupabaseConfig (get config "supabase")
    else Ok tt.

(** A synchronous result inside the monad. *)
Definition of_outcome {A} (o : outcome A) : M A := fun w => (o, w).

Section Loader.
Variable E : env.

(** [existsSync(p)]: never throws. *)
Definition existsSync (p : string) : M bool :=
  emit (EvExistsSync p) ;; ret (exists_sync E p).

(** The [for ... of] loop of [findConfigPath] over the remaining names. *)
Fixpoint find_in (cwd : string) (names : list string) : M (option string) :=
  match names with
  | [] => ret None
  | fileName :: rest =>
      let fullPath := path_resolve E cwd fileName in
      found <- existsSync fullPath ;;
      if found then ret (Some fullPath) else find_in cwd rest
  end.

(** [findConfigPath]; [None] is [null]. *)
Definition findConfigPath (cwd : string) : M (option string) :=
  find_in cwd CONFIG_FILE_NAMES.

(** The [try ... catch] of [loadConfig], for a found [configPath]. *)
Definition load_from (configPath : string) : M value :=
  try_catch
    (let configUrl := path_to_file_url E configPath in
     config <- call_exn (EvImport configUrl) (import_module E configUrl) ;;
     of_outcome (validateConfig config) ;;
     set_cachedConfig (Some config) ;;
     ret config)
    (fun error =>
       match error with
       | ConfigNotFoundError _ | ConfigInvalidError _ _ => throw error
       | _ => throw (ConfigInvalidError
                       ("設定ファイルの読み込みに失敗しました: " ++ message error) None)
       end).

(** [loadConfig(cwd)] *)
Definition loadConfig (cwd : string) : M value :=
  let not_found :=
    throw (ConfigNotFoundError (map (fun name => path_resolve E cwd name)
                                    CONFIG_FILE_NAMES)) in
  let uncached :=
    configPath <- findConfigPath cwd ;;
    match configPath with
    | None => not_found
    | Some p => if String.eqb p "" then not_found else load_from p
    end in
  w <- get_world ;;
  match cachedConfig w with
  | Some c => if truthy c then ret c else uncached
  | None => uncached
  end.

End Loader.

(** [clearConfigCache] *)
Definition clearConfigCache : M unit := set_cachedConfig None.

(** What a discovery at [paths] looks at: the candidates probed, in order,
    and the first one that exists. *)
Fixpoint probe (E : env) (paths : list string) : list string * option string :=
  match paths with
  | [] => ([], None)
  | p :: ps =>
      if exists_sync E p then ([p], Some p)
      else let '(tried, found) := probe E ps in (p :: tried, found)
  end.

End Config.

(** End-to-end scenario B of the spec: no configuration file, and a
    configuration already cached by an earlier call. *)
Module ScenarioB.

Definition valid_config : value :=
  Object [("provider", Str "firebase");
          ("firebase", Object [("serviceAccount", Str "{}"); ("apiKey", Str "K");
                               ("uid", Str "u1")])].

Definition cwd : string := "/proj".

Definition world_cached : world :=
  {| adminInitialized := false; cachedConfig := Some valid_config;
     clock := ScenarioA.issuedAtMs; trace := [] |}.

End ScenarioB.

(** ** The provider registry ([src/providers/index.ts]) *)
Module Registry.

(** The two instances, by their own [name] field (their methods live on
    the class prototypes and are not read here). *)
Definition firebase_provider : value := Object [("name", Str "firebase")].
Definition supabase_provider : value := Object [("name", Str "supabase")].

(** [providers]: a plain object literal. *)
Definition providers : value :=
  Object [("firebase", firebase_provider); ("supabase", supabase_provider)].

(** [getProvider(name)] *)
Definition getProvider (name : string) : outcome value :=
  let provider := get providers name in
  if negb (truthy provider) then Throw (PlainError ("Unknown provider: " ++ name))
  else Ok provider.

End Registry.

(** ** [injectAuth] ([src/index.ts]) after [loadConfig], in its two
    versions: the current one, which resolves the provider in the registry,
    and the earlier one, which switches on the provider name. *)
Module InjectAuth.
Import Config.

(** CreateDataProperty on an object's own properties: an existing key
    keeps its place and takes the new value, a new key is appended. *)
Fixpoint set_prop (ps : list (string * value)) (k : string) (v : value)
    : list (string * value) :=
  match ps with
  | [] => [(k, v)]
  | (k', v') :: ps' =>
      if String.eqb k k' then (k', v) :: ps' else (k', v') :: set_prop ps' k v
  end.

Definition define_props (acc es : list (string * value)) : list (string * value) :=
  fold_left (fun acc kv => set_prop acc (fst kv) (snd kv)) es acc.

Fixpoint indexed {A} (f : A -> value) (i : nat) (xs : list A) : list (string * value) :=
  match xs with
  | [] => []
  | x :: xs' => (z_to_string (Z.of_nat i), f x) :: indexed f (S i) xs'
  end.

Fixpoint chars (s : string) : list string :=
  match s with
  | EmptyString => []
  | String c s' => String c EmptyString :: chars s'
  end.

(** The own enumerable properties that [...v] copies: an object's
    properties, an array's or a string's indexed elements, nothing for
    the other primitives, [null] and [undefined]. *)
Definition spread_entries (v : value) : list (string * value) :=
  match v with
  | Object ps => ps
  | Array xs => indexed (fun x => x) 0 xs
  | Str s => indexed Str 0 (chars s)
  | _ => []
  end.

(** The properties of [{ ...v1, ...v2, ... }]. *)
Definition spread_props (parts : list value) : list (string * value) :=
  fold_left (fun acc v => define_props acc (spread_entries v)) parts [].

(** [{ ...v1, ...v2, ... }] *)
Definition spread (parts : list value) : value := Object (spread_props parts).

(** [options.profile && config.profiles?.[options.profile]], when truthy. *)
Definition profile_override (config : value) (profile : option string) : option value :=
  match profile with
  | Some p =>
      if String.eqb p "" then None
      else
        let o := match get config "profiles" with
                 | Undefined | Null => Undefined
                 | profiles => get profiles p
                 end in
        if truthy o then Some o else None
  | None => None
  end.

(** The current [injectAuth]: the provider and the configuration handed
    to [provider.inject]. *)
Definition injectAuth_args (config : value) (profile : option string)
    : outcome (value * value) :=
  let name := to_string (get config "provider") in
  match Registry.getProvider name with
  | Throw e => Throw e
  | Ok provider =>
      let providerConfig := get config name in
      if negb (truthy providerConfig) then
        Throw (ConfigInvalidError (name ++ " config is required") (Some name))
      else
        let effectiveConfig :=
          match profile_override config profile with
          | Some o => spread [providerConfig; o]
          | None => providerConfig
          end in
        Ok (provider, effectiveConfig)
  end.

(** The earlier [injectAuth]: the configuration after the override, and the
    configuration handed to [injectFirebaseAuth]. *)
Definition injectAuth_old_effective (config : value) (profile : option string) : value :=
  match profile_override config profile with
  | Some profileOverride =>
      let fb := get config "firebase" in
      let sb := get config "supabase" in
      Object (set_prop
                (set_prop (spread_props [config]) "firebase"
                   (if truthy fb then spread [fb; profileOverride] else Undefined))
                "supabase"
                (if truthy sb then spread [sb; profileOverride] else Undefined))
  | None => config
  end.

Definition injectAuth_old_arg (config : value) (profile : option string) : outcome value :=
  let effectiveConfig := injectAuth_old_effective config profile in
  let provider := get effectiveConfig "provider" in
  if strict_eq_str provider "firebase" then
    let fbc := get effectiveConfig "firebase" in
    if negb (truthy fbc) then
      Throw (ConfigInvalidError "firebase 設定が必要です" (Some "firebase"))
    else Ok fbc
  else if strict_eq_str provider "supabase" then
    Throw (ConfigInvalidError
             "Supabase はまだ実装されていません。Firebase を使用してください。"
             (Some "provider"))
  else
    Throw (ConfigInvalidError ("未対応のプロバイダー: " ++ to_string provider)
                              (Some "provider")).

End InjectAuth.

(** A configuration with both providers and an [admin] profile. *)
Module ScenarioProfile.

Definition firebase_cfg : value :=
  Object [("serviceAccount", Str "{}"); ("apiKey", Str "K"); ("uid", Str "u1")].

Definition supabase_cfg : value :=
  Object [("url", Str "https://x.supabase.co"); ("anonKey", Str "A");
          ("email", Str "e@x"); ("password", Str "p")].

Definition admin_override : value := Object [("uid", Str "admin-uid")].

Definition config : value :=
  Object [("provider", Str "firebase"); ("firebase", firebase_cfg);
          ("supabase", supabase_cfg);
          ("profiles", Object [("admin", admin_override)])].

End ScenarioProfile.

(** ** [SupabaseAuthProvider] ([src/providers/firebase.ts], after the
    [AuthProvider] interface) *)
Module Supabase.
Import FirebaseValidate.

(** [SupabaseConfig] *)
Record SupabaseConfig := {
  url : string;
  anonKey : string;
  email : string;
  password : string
}.

(** [validateConfig] *)
Definition validateConfig (config : value) : outcome SupabaseConfig :=
  if negb (truthy config) || negb (String.eqb (typeof config) "object") then
    Throw (ConfigInvalidError "supabase config is required" (Some "supabase"))
  else
    let c := config in
    match string_field (get c "url") with
    | None =>
        Throw (ConfigInvalidError "url must be a string" (Some "supabase.url"))
    | Some u =>
        match string_field (get c "anonKey") with
        | None =>
            Throw (ConfigInvalidError "anonKey must be a string" (Some "supabase.anonKey"))
        | Some ak =>
            match string_field (get c "email") with
            | None =>
                Throw (ConfigInvalidError "email must be a string" (Some "supabase.email"))
            | Some em =>
                match string_field (get c "password") with
                | None =>
                    Throw (ConfigInvalidError "password must be a string"
                             (Some "supabase.password"))
                | Some pw =>
                    Ok {| url := u; anonKey := ak; email := em; password := pw |}
                end
            end
        end
    end.

(** [inject]: not implemented yet, it rejects without using the page. *)
Definition inject (config : SupabaseConfig) (options : Firebase.InjectOptions) : M unit :=
  throw (ConfigInvalidError "Supabase is not yet implemented. Please use Firebase."
           (Some "provider")).

End Supabase.

(** ** The registry-based [validateConfig] of [src/config.ts]
    (unnamed/part_002), which hands the provider's sub-object to the
    validator of the provider instance. *)
Module ConfigV2.
Import Config.

(** [provider.validateConfig(x)] on an instance of the registry: the
    method of its class (the registry holds no other instances). *)
Definition provider_validateConfig (provider : value) (x : value) : outcome unit :=
  if strict_eq_str (get provider "name") "firebase" then
    match FirebaseValidate.validateConfig x with Ok _ => Ok tt | Throw e => Throw e end
  else if strict_eq_str (get provider "name") "supabase" then
    match Supabase.validateConfig x with Ok _ => Ok tt | Throw e => Throw e end
  else Throw (PlainError "provider.validateConfig is not a function").

(** [validateConfig] *)
Definition validateConfig (config : value) : outcome unit :=
  if not_object config then
    Throw (ConfigInvalidError "Config must be an object" None)
  else
    let provider := get config "provider" in
    if negb (truthy provider) then
      Throw (ConfigInvalidError "provider is required" (Some "provider"))
    else if negb (strict_eq_str provider "firebase") &&
            negb (strict_eq_str provider "supabase") then
      Throw (ConfigInvalidError
               ("provider must be 'firebase' or 'supabase'. Got: " ++ to_string provider)
               (Some "provider"))
    else
      let name := to_string provider in
      match Registry.getProvider name with
      | Throw e => Throw e
      | Ok p => provider_validateConfig p (get config name)
      end.

End ConfigV2.

(** A project with [playwright-auth.config.js] only. *)
Module ScenarioLoad.

Definition env_js : env :=
  {| json_parse := json_parse ScenarioA.mock_env;
     initialize_app := initialize_app ScenarioA.mock_env;
     create_custom_token := create_custom_token ScenarioA.mock_env;
     fetch := fetch ScenarioA.mock_env;
     get_user := get_user ScenarioA.mock_env;
     date_parse := date_parse ScenarioA.mock_env;
     add_init_script := add_init_script ScenarioA.mock_env;
     goto := goto ScenarioA.mock_env;
     wait_for_timeout := wait_for_timeout ScenarioA.mock_env;
     exists_sync := fun p => String.eqb p "/proj/playwright-auth.config.js";
     import_module := fun _ => inl (PlainError "Unexpected token 'export'");
     path_resolve := path_resolve ScenarioA.mock_env;
     path_to_file_url := path_to_file_url ScenarioA.mock_env |}.

(** The same project, whose [playwright-auth.config.js] exports the valid
    configuration of scenario B. *)
Definition env_ok : env :=
  {| json_parse := json_parse env_js;
     initialize_app := initialize_app env_js;
     create_custom_token := create_custom_token env_js;
     fetch := fetch env_js;
     get_user := get_user env_js;
     date_parse := date_parse env_js;
     add_init_script := add_init_script env_js;
     goto := goto env_js;
     wait_for_timeout := wait_for_timeout env_js;
     exists_sync := exists_sync env_js;
     import_module := fun _ => inr ScenarioB.valid_config;
     path_resolve := path_resolve env_js;
     path_to_file_url := path_to_file_url env_js |}.

(** The same project, whose config module itself throws a
    [ConfigInvalidError] (a class the package exports). *)
Definition env_throws : env :=
  {| json_parse := json_parse env_js;
     initialize_app := initialize_app env_js;
     create_custom_token := create_custom_token env_js;
     fetch := fetch env_js;
     get_user := get_user env_js;
     date_parse := date_parse env_js;
     add_init_script := add_init_script env_js;
     goto := goto env_js;
     wait_for_timeout := wait_for_timeout env_js;
     exists_sync := exists_sync env_js;
     import_module := fun _ => inl (ConfigInvalidError "missing key" (Some "firebase.apiKey"));
     path_resolve := path_resolve env_js;
     path_to_file_url := path_to_file_url env_js |}.

End ScenarioLoad.

(** A page that has been closed: [page.addInitScript] rejects. *)
Module ScenarioPageClosed.

Definition env_closed : env :=
  {| json_parse := json_parse ScenarioA.mock_env;
     initialize_app := initialize_app ScenarioA.mock_env;
     create_custom_token := create_custom_token ScenarioA.mock_env;
     fetch := fetch ScenarioA.mock_env;
     get_user := get_user ScenarioA.mock_env;
     date_parse := date_parse ScenarioA.mock_env;
     add_init_script := fun _ => Some "Target page, context or browser has been closed";
     goto := goto ScenarioA.mock_env;
     wait_for_timeout := wait_for_timeout ScenarioA.mock_env;
     exists_sync := exists_sync ScenarioA.mock_env;
     import_module := import_module ScenarioA.mock_env;
     path_resolve := path_resolve ScenarioA.mock_env;
     path_to_file_url := path_to_file_url ScenarioA.mock_env |}.

End ScenarioPageClosed.

(* ================================================================== *)
(** * Properties *)

Module FirebaseValidateProps.
Import FirebaseValidate.

Definition required_fields : list string := ["serviceAccount"; "apiKey"; "uid"].

Definition is_object (v : value) : bool :=
  truthy v && String.eqb (typeof v) "object".

(** [f] is the dotted path of a field that the input gets wrong. *)
Definition offending (v : value) (f : string) : Prop :=
  (f = "firebase" /\ is_object v = false) \/
  (exists k, In k required_fields /\ f = ("firebase." ++ k)%string /\
             is_object v = true /\ string_field (get v k) = None).

Lemma string_field_Some v s : string_field v = Some s -> v = Str s /\ s <> "".
Proof.
  unfold string_field; intros H.
  destruct (negb (truthy v) || negb (String.eqb (typeof v) "string")) eqn:E;
    [discriminate|].
  destruct v as [| | | |s0| | |]; try discriminate.
  inversion H; subst; split; [reflexivity|].
  intros ->; simpl in E; discriminate.
Qed.

Lemma string_field_missing v :
  v = Undefined \/ typeof v <> "string" -> string_field v = None.
Proof.
  unfold string_field; intros [->|H]; [reflexivity|].
  destruct (String.eqb_spec (typeof v) "string") as [E|_]; [contradiction|].
  rewrite orb_true_r; reflexivity.
Qed.

Lemma validateConfig_cases v :
  (exists cfg, validateConfig v = Ok cfg /\ is_object v = true /\
     get v "serviceAccount" = Str (serviceAccount cfg) /\
     get v "apiKey" = Str (apiKey cfg) /\ get v "uid" = Str (uid cfg) /\
     serviceAccount cfg <> "" /\ apiKey cfg <> "" /\ uid cfg <> "") \/
  (exists m f, validateConfig v = Throw (ConfigInvalidError m (Some f)) /\
     offending v f /\
     (f = "firebase" \/ f = "firebase.serviceAccount" \/ f = "firebase.apiKey"
      \/ f = "firebase.uid")).
Proof.
  unfold validateConfig, offending, is_object.
  destruct (negb (truthy v) || negb (String.eqb (typeof v) "object")) eqn:Eo.
  - right. do 2 eexists; split; [reflexivity|].
    split; [left; split; [reflexivity|] | left; reflexivity].
    destruct (truthy v), (String.eqb (typeof v) "object"); simpl in *; congruence.
  - assert (Hobj : truthy v && String.eqb (typeof v) "object" = true).
    { destruct (truthy v), (String.eqb (typeof v) "object"); simpl in *; congruence. }
    destruct (string_field (get v "serviceAccount")) as [sa|] eqn:E1.
    2:{ right. do 2 eexists; split; [reflexivity|]. split; [|right; left; reflexivity].
        right. exists "serviceAccount"; simpl; auto 6. }
    destruct (string_field (get v "apiKey")) as [ak|] eqn:E2.
    2:{ right. do 2 eexists; split; [reflexivity|]. split; [|right; right; left; reflexivity].
        right. exists "apiKey"; simpl; auto 6. }
    destruct (string_field (get v "uid")) as [u|] eqn:E3.
    2:{ right. do 2 eexists; split; [reflexivity|]. split; [|right; right; right; reflexivity].
        right. exists "uid"; simpl; auto 6. }
    left. eexists; split; [reflexivity|]. simpl.
    apply string_field_Some in E1 as [? ?], E2 as [? ?], E3 as [? ?].
    repeat split; auto.
Qed.

End FirebaseValidateProps.

(** ** Reasoning about the monad *)
Module MonadFacts.
Local Open Scope list_scope.

Lemma bind_Ok {A B} (m : M A) (k : A -> M B) w b w' :
  bind m k w = (Ok b, w') -> exists a w1, m w = (Ok a, w1) /\ k a w1 = (Ok b, w').
Proof. unfold bind. destruct (m w) as [[a|e] w1]; intros H; [eauto|discriminate]. Qed.

Lemma bind_Throw {A B} (m : M A) (k : A -> M B) w e w' :
  bind m k w = (Throw e, w') ->
  m w = (Throw e, w') \/ exists a w1, m w = (Ok a, w1) /\ k a w1 = (Throw e, w').
Proof.
  unfold bind. destruct (m w) as [[a|e'] w1]; intros H; [eauto|].
  inversion H; subst; auto.
Qed.

Lemma bind_of_Throw {A B} (m : M A) (k : A -> M B) w e w1 :
  m w = (Throw e, w1) -> bind m k w = (Throw e, w1).
Proof. unfold bind. intros ->. reflexivity. Qed.

Lemma bind_of_Ok {A B} (m : M A) (k : A -> M B) w a w1 :
  m w = (Ok a, w1) -> bind m k w = k a w1.
Proof. unfold bind. intros ->. reflexivity. Qed.

Lemma try_catch_Ok {A} (m : M A) h w a w' :
  try_catch m h w = (Ok a, w') ->
  m w = (Ok a, w') \/ exists e w1, m w = (Throw e, w1) /\ h e w1 = (Ok a, w').
Proof.
  unfold try_catch. destruct (m w) as [[a'|e] w1]; intros H; [left; exact H|eauto].
Qed.

Lemma try_catch_Throw {A} (m : M A) h w e w' :
  try_catch m h w = (Throw e, w') -> exists e0 w1, m w = (Throw e0, w1) /\ h e0 w1 = (Throw e, w').
Proof.
  unfold try_catch. destruct (m w) as [[a'|e0] w1]; intros H; [discriminate|eauto].
Qed.

(** [w'] is [w] later: same clock, trace extended at its head. *)
Definition extends (w w' : world) : Prop :=
  clock w' = clock w /\ exists l, trace w' = l ++ trace w.

Lemma extends_refl w : extends w w.
Proof. split; [reflexivity|exists []; reflexivity]. Qed.

Lemma extends_trans w1 w2 w3 : extends w1 w2 -> extends w2 w3 -> extends w1 w3.
Proof.
  intros [C1 [l1 T1]] [C2 [l2 T2]]. split; [congruence|].
  exists (l2 ++ l1). rewrite T2, T1, app_assoc. reflexivity.
Qed.

Lemma extends_In w w' ev : extends w w' -> In ev (trace w) -> In ev (trace w').
Proof. intros [_ [l ->]] H. apply in_or_app; auto. Qed.

Definition Frame {A} (m : M A) : Prop := forall w r w', m w = (r, w') -> extends w w'.

Lemma Frame_run {A} (m : M A) w r w' : Frame m -> m w = (r, w') -> extends w w'.
Proof. intros F H. exact (F w r w' H). Qed.

Lemma Frame_ret {A} (a : A) : Frame (ret a).
Proof. intros w r w' H; inversion H; subst; apply extends_refl. Qed.

Lemma Frame_throw {A} e : Frame (@throw A e).
Proof. intros w r w' H; inversion H; subst; apply extends_refl. Qed.

Lemma Frame_get_world : Frame get_world.
Proof. intros w r w' H; inversion H; subst; apply extends_refl. Qed.

Lemma Frame_emit ev : Frame (emit ev).
Proof.
  intros w r w' H; inversion H; subst. split; [reflexivity|].
  unfold after; simpl.
  exists [ev]; reflexivity.
Qed.

Lemma Frame_set_adminInitialized b : Frame (set_adminInitialized b).
Proof. intros w r w' H; inversion H; subst; split; [reflexivity|exists []; reflexivity]. Qed.

Lemma Frame_set_cachedConfig c : Frame (set_cachedConfig c).
Proof. intros w r w' H; inversion H; subst; split; [reflexivity|exists []; reflexivity]. Qed.

Lemma Frame_bind {A B} (m : M A) (k : A -> M B) :
  Frame m -> (forall a, Frame (k a)) -> Frame (bind m k).
Proof.
  intros Hm Hk w r w'. unfold bind.
  destruct (m w) as [[a|e] w1] eqn:E; intros H.
  - eapply extends_trans; [eapply Hm; eauto|eapply Hk; eauto].
  - inversion H; subst. eapply Hm; eauto.
Qed.

Lemma Frame_try_catch {A} (m : M A) h :
  Frame m -> (forall e, Frame (h e)) -> Frame (try_catch m h).
Proof.
  intros Hm Hh w r w'. unfold try_catch.
  destruct (m w) as [[a|e] w1] eqn:E; intros H.
  - inversion H; subst. eapply Hm; eauto.
  - eapply extends_trans; [eapply Hm; eauto|eapply Hh; eauto].
Qed.

Create HintDb frame.
#[global] Hint Resolve Frame_ret Frame_throw Frame_get_world Frame_emit
  Frame_set_adminInitialized Frame_set_cachedConfig : frame.

Ltac solve_frame :=
  repeat (intros;
          match goal with
          | |- Frame (bind _ _) => apply Frame_bind
          | |- Frame (try_catch _ _) => apply Frame_try_catch
          | |- Frame (match ?x with _ => _ end) => destruct x
          | |- Frame (if ?x then _ else _) => destruct x
          | |- Frame _ => solve [auto with frame]
          end).

Lemma Frame_call {A} ev (r : string + A) : Frame (call ev r).
Proof. unfold call. solve_frame. Qed.

Lemma Frame_call_unit ev r : Frame (call_unit ev r).
Proof. unfold call_unit. apply Frame_call. Qed.

Lemma Frame_date_now : Frame date_now.
Proof. unfold date_now. solve_frame. Qed.

#[global] Hint Resolve Frame_call Frame_call_unit Frame_date_now : frame.

End MonadFacts.

(** ** Facts about the Firebase provider *)
Module FirebaseFacts.
Import MonadFacts Firebase FirebaseValidate.
Local Open Scope list_scope.

Lemma call_eq {A} ev (r : string + A) w :
  call ev r w = (match r with
                 | inl msg => Throw (PlainError msg)
                 | inr a => Ok a
                 end, after ev w).
Proof. destruct r; reflexivity. Qed.

Lemma call_Ok {A} ev (r : string + A) w a w' :
  call ev r w = (Ok a, w') -> r = inr a /\ w' = after ev w.
Proof. rewrite call_eq. destruct r; intros H; inversion H; subst; auto. Qed.

Lemma call_Throw {A} ev (r : string + A) w e w' :
  call ev r w = (Throw e, w') -> exists msg, r = inl msg /\ e = PlainError msg /\ w' = after ev w.
Proof. rewrite call_eq. destruct r; intros H; inversion H; subst; eauto. Qed.

Lemma call_unit_Ok ev r w w' :
  call_unit ev r w = (Ok tt, w') -> r = None /\ w' = after ev w.
Proof.
  unfold call_unit. intros H. apply call_Ok in H as [H ->]. destruct r; [discriminate|auto].
Qed.

Lemma Frame_initializeAdmin E s : Frame (initializeAdmin E s).
Proof. unfold initializeAdmin. solve_frame. Qed.

Lemma Frame_createCustomToken E u : Frame (createCustomToken E u).
Proof. unfold createCustomToken. solve_frame. Qed.

Lemma Frame_exchangeCustomToken E ct ak : Frame (exchangeCustomToken E ct ak).
Proof. unfold exchangeCustomToken, fetch_call. cbv zeta. solve_frame. Qed.

Lemma Frame_getUserRecord E u : Frame (getUserRecord E u).
Proof. unfold getUserRecord. solve_frame. Qed.

Lemma Frame_createAuthData E u ak tr ur : Frame (createAuthData E u ak tr ur).
Proof. unfold createAuthData. solve_frame. Qed.

#[global] Hint Resolve Frame_initializeAdmin Frame_createCustomToken
  Frame_exchangeCustomToken Frame_getUserRecord Frame_createAuthData : frame.

Lemma Frame_inject E cfg opts : Frame (inject E cfg opts).
Proof. unfold inject. cbv zeta. solve_frame. Qed.

Definition null_read_error (tr : value) : exn :=
  PlainError ("Cannot read properties of " ++ to_string tr ++ " (reading 'expiresIn')").

Lemma createAuthData_run E u ak tr ur w :
  createAuthData E u ak tr ur w =
  (if nullish tr then Throw (null_read_error tr)
   else Ok (auth_data_at E u ak tr ur (clock w)), after EvDateNow w).
Proof. unfold createAuthData, bind, date_now, emit, get_world, ret, throw. destruct (nullish tr); reflexivity. Qed.

Lemma createAuthData_Ok E u ak tr ur w d w' :
  createAuthData E u ak tr ur w = (Ok d, w') ->
  nullish tr = false /\ d = auth_data_at E u ak tr ur (clock w) /\ w' = after EvDateNow w.
Proof.
  rewrite createAuthData_run. destruct (nullish tr); intros H; inversion H; auto.
Qed.

Lemma createAuthData_Throw E u ak tr ur w e w' :
  createAuthData E u ak tr ur w = (Throw e, w') ->
  nullish tr = true /\ e = null_read_error tr /\ w' = after EvDateNow w.
Proof.
  rewrite createAuthData_run. destruct (nullish tr); intros H; inversion H; auto.
Qed.

Lemma exchangeCustomToken_Ok E ct ak w tr w' :
  exchangeCustomToken E ct ak w = (Ok tr, w') ->
  exists r, fetch E (exchange_url ak) ct = FetchResponds r /\ ok r = true /\
            json_result r = inr tr.
Proof.
  unfold exchangeCustomToken; cbv zeta. intros H.
  apply try_catch_Ok in H as [H|(e & w1 & _ & H)].
  2:{ destruct e; discriminate. }
  apply bind_Ok in H as (r & w1 & Hf & H).
  unfold fetch_call in Hf. apply call_Ok in Hf as [Hf _].
  exists r. destruct (fetch E (exchange_url ak) ct); inversion Hf; subst.
  split; [reflexivity|].
  destruct (ok r) eqn:Hok; simpl in H.
  - apply bind_Ok in H as (d & w2 & Hj & H). apply call_Ok in Hj as [Hj _].
    inversion H; subst. auto.
  - apply bind_Ok in H as (b & w2 & _ & H). discriminate.
Qed.

Lemma getUserRecord_Ok E u w ur w' :
  getUserRecord E u w = (Ok ur, w') -> get_user E u = inr ur.
Proof.
  unfold getUserRecord. intros H.
  apply try_catch_Ok in H as [H|(e & w1 & _ & H)]; [|discriminate].
  apply call_Ok in H as [H _]. exact H.
Qed.

End FirebaseFacts.

Module PayloadProps.
Import MonadFacts Firebase FirebaseValidate FirebaseFacts.

(** C1: in every successful run of [inject], the payload handed to
    [page.addInitScript] has [stsTokenManager.expirationTime] equal to the
    instant returned by the one [Date.now()] read plus
    [parseInt(expiresIn, 10) * 1000] of the exchange response,
    [accessToken] equal to the response's [idToken], and [email] equal to
    the profile's email ([|| null]); [lastLoginAt] is the same instant. *)
Theorem inject_payload_expirationTime :
  forall E cfg opts w w',
    inject E cfg opts w = (Ok tt, w') ->
    exists d ct r tr ur,
      In (EvAddInitScript d) (trace w') /\
      fetch E (exchange_url (apiKey cfg)) ct = FetchResponds r /\
      json_result r = inr tr /\
      get_user E (uid cfg) = inr ur /\
      expirationTime (FirebaseAuthUser.stsTokenManager (value_ d)) =
        add (Num (clock w)) (mul (parseInt10 (get tr "expiresIn")) (Num 1000)) /\
      accessToken (FirebaseAuthUser.stsTokenManager (value_ d)) = get tr "idToken" /\
      FirebaseAuthUser.email (value_ d) = or_null (AdminUserRecord.email ur) /\
      FirebaseAuthUser.lastLoginAt (value_ d) = z_to_string (clock w).
Proof.
  intros E cfg opts w w' H.
  unfold inject in H. cbv zeta in H.
  apply bind_Ok in H as ([] & w1 & H1 & H).
  apply bind_Ok in H as (ct & w2 & H2 & H).
  apply bind_Ok in H as (tr & w3 & H3 & H).
  apply bind_Ok in H as (ur & w4 & H4 & H).
  apply bind_Ok in H as (d & w5 & H5 & H).
  apply bind_Ok in H as ([] & w6 & H6 & H).
  apply createAuthData_Ok in H5 as (_ & -> & ->).
  apply try_catch_Ok in H6 as [H6|(e & w7 & _ & H6)]; [|discriminate].
  apply call_unit_Ok in H6 as [_ ->].
  assert (Hrest : extends (after (EvAddInitScript
                   (auth_data_at E (uid cfg) (apiKey cfg) tr ur (clock w4)))
                   (after EvDateNow w4)) w').
  { eapply Frame_run; [|exact H]. solve_frame. }
  assert (Hc : clock w4 = clock w).
  { assert (X1 := Frame_run _ _ _ _ (Frame_initializeAdmin E _) H1).
    assert (X2 := Frame_run _ _ _ _ (Frame_createCustomToken E _) H2).
    assert (X3 := Frame_run _ _ _ _ (Frame_exchangeCustomToken E _ _) H3).
    assert (X4 := Frame_run _ _ _ _ (Frame_getUserRecord E _) H4).
    destruct X1 as [C1 _], X2 as [C2 _], X3 as [C3 _], X4 as [C4 _]. congruence. }
  apply exchangeCustomToken_Ok in H3 as (r & Hf & _ & Hj).
  apply getUserRecord_Ok in H4.
  exists (auth_data_at E (uid cfg) (apiKey cfg) tr ur (clock w4)), ct, r, tr, ur.
  rewrite Hc in *.
  repeat split; auto.
  eapply extends_In; [exact Hrest|]. left; reflexivity.
Qed.

Lemma inject_payload_expirationTime_witness :
  exists w',
    inject ScenarioA.mock_env ScenarioA.config ScenarioA.options ScenarioA.world0
      = (Ok tt, w') /\
    exists d,
      In (EvAddInitScript d) (trace w') /\
      expirationTime (FirebaseAuthUser.stsTokenManager (value_ d)) =
        Num (ScenarioA.issuedAtMs + 3600000) /\
      accessToken (FirebaseAuthUser.stsTokenManager (value_ d)) = Str "T" /\
      FirebaseAuthUser.email (value_ d) = Some "a@b.com".
Proof.
  exists (snd (inject ScenarioA.mock_env ScenarioA.config ScenarioA.options
                      ScenarioA.world0)).
  assert (Hrun : inject ScenarioA.mock_env ScenarioA.config ScenarioA.options
                   ScenarioA.world0
                 = (Ok tt, snd (inject ScenarioA.mock_env ScenarioA.config
                                  ScenarioA.options ScenarioA.world0)))
    by (vm_compute; reflexivity).
  split; [exact Hrun|].
  destruct (inject_payload_expirationTime _ _ _ _ _ Hrun)
    as (d & ct & r & tr & ur & Hin & Hf & Hj & Hu & He & Ha & Hm & _).
  simpl in Hf. injection Hf as <-. simpl in Hj. injection Hj as <-.
  simpl in Hu. injection Hu as <-.
  exists d. split; [exact Hin|].
  rewrite He, Ha, Hm. split; [vm_compute; reflexivity|].
  split; reflexivity.
Defined.

(** C2: whenever payload shaping produces a payload, which it does for
    every token response but [null] and [undefined] (on those,
    [tokenResponse.expiresIn] throws), the IndexedDB key of the payload is
    exactly [firebase:authUser:<apiKey>:[DEFAULT]], whatever the
    principal, the token response, the user record and the instant; two
    runs with the same apiKey produce the same key. *)
Theorem createAuthData_storage_key :
  forall E u ak tr ur w,
    nullish tr = false ->
    exists d w',
      createAuthData E u ak tr ur w = (Ok d, w') /\
      fbase_key d = ("firebase:authUser:" ++ ak ++ ":[DEFAULT]")%string /\
      (forall E' u' tr' ur' w2 d' w2',
         createAuthData E' u' ak tr' ur' w2 = (Ok d', w2') -> fbase_key d' = fbase_key d).
Proof.
  intros E u ak tr ur w Hn.
  do 2 eexists. split; [rewrite createAuthData_run, Hn; reflexivity|].
  split; [reflexivity|].
  intros E' u' tr' ur' w2 d' w2' H.
  apply createAuthData_Ok in H as (_ & -> & _). reflexivity.
Qed.

Lemma createAuthData_storage_key_witness :
  exists d w',
    createAuthData ScenarioA.mock_env "u1" "K" ScenarioA.tokenResponse ScenarioA.profile
      ScenarioA.world0 = (Ok d, w') /\
    fbase_key d = ("firebase:authUser:" ++ "K" ++ ":[DEFAULT]")%string /\
    (forall E' u' tr' ur' w2 d' w2',
       createAuthData E' u' "K" tr' ur' w2 = (Ok d', w2') -> fbase_key d' = fbase_key d).
Proof.
  exact (createAuthData_storage_key ScenarioA.mock_env "u1" "K" ScenarioA.tokenResponse
           ScenarioA.profile ScenarioA.world0 eq_refl).
Defined.

End PayloadProps.

Module ValidateTheorems.
Import FirebaseValidate FirebaseValidateProps.

(** C3: [validateConfig] on a raw value that is not an object, or that lacks
    one of serviceAccount, apiKey, uid, or holds a non-string there, throws
    [ConfigInvalidError] whose field is the dotted path of an offending
    field; every other outcome is also such an error, or a config made of
    exactly the three string fields read from the input. *)
Theorem validateConfig_atomic :
  forall v,
    ((is_object v = false \/
      exists k, In k required_fields /\ (get v k = Undefined \/ typeof (get v k) <> "string")) ->
     exists m f, validateConfig v = Throw (ConfigInvalidError m (Some f)) /\ offending v f) /\
    (forall cfg, validateConfig v = Ok cfg ->
       is_object v = true /\
       get v "serviceAccount" = Str (serviceAccount cfg) /\
       get v "apiKey" = Str (apiKey cfg) /\
       get v "uid" = Str (uid cfg)) /\
    (forall e, validateConfig v = Throw e ->
       exists m f, e = ConfigInvalidError m (Some f) /\ offending v f).
Proof.
  intros v. destruct (validateConfig_cases v)
    as [(cfg & Hok & Ho & Hs & Ha & Hu & _)|(m & f & Hth & Hoff & _)].
  - split; [|split].
    + intros [Hn|(k & Hk & Hbad)]; [congruence|].
      exfalso. simpl in Hk.
      destruct Hk as [<-|[<-|[<-|[]]]];
        [rewrite Hs in Hbad|rewrite Ha in Hbad|rewrite Hu in Hbad];
        destruct Hbad as [Hb|Hb]; try discriminate; apply Hb; reflexivity.
    + intros cfg' H. rewrite Hok in H. injection H as <-. auto.
    + intros e H. rewrite Hok in H. discriminate.
  - split; [|split].
    + intros _. eauto.
    + intros cfg H. rewrite Hth in H. discriminate.
    + intros e H. rewrite Hth in H. injection H as <-. eauto.
Qed.

Lemma validateConfig_atomic_witness :
  exists m f,
    validateConfig (Object [("serviceAccount", Str "{}"); ("apiKey", Number (Num 5));
                            ("uid", Str "u1")])
      = Throw (ConfigInvalidError m (Some f)) /\
    offending (Object [("serviceAccount", Str "{}"); ("apiKey", Number (Num 5));
                       ("uid", Str "u1")]) f.
Proof.
  apply (proj1 (validateConfig_atomic _)).
  right. exists "apiKey". split; [simpl; auto|].
  right. simpl. discriminate.
Defined.

End ValidateTheorems.

(** ** The pipeline of [inject]: order of the steps and short-circuit *)
Module PipelineFacts.
Import MonadFacts Firebase FirebaseValidate FirebaseFacts.
Local Open Scope list_scope.

(** The step of [inject] (numbered as in the source) an external call
    belongs to. *)
Definition step_of_event (ev : event) : nat :=
  match ev with
  | EvJsonParse _ | EvInitializeApp _ => 1
  | EvCreateCustomToken _ => 2
  | EvFetch _ _ | EvResponseText | EvResponseJson => 3
  | EvGetUser _ => 4
  | EvDateNow => 5
  | EvAddInitScript _ => 6
  | EvGoto _ => 7
  | EvWaitForTimeout _ => 8
  | EvExistsSync _ | EvImport _ => 0
  end.

(** Newest first, so a run whose steps happen in order has a
    non-increasing list of step numbers. *)
Fixpoint nonincreasing (l : list nat) : bool :=
  match l with
  | x :: ((y :: _) as t) => (y <=? x)%nat && nonincreasing t
  | _ => true
  end.

(** The error each step raises when it fails. *)
Definition step_error (u : string) (k : nat) (e : exn) : Prop :=
  match k with
  | 1 => exists m, e = AuthenticationError ("Failed to initialize Firebase Admin SDK: " ++ m)
  | 2 => exists m, e = AuthenticationError
                         ("Failed to create custom token (UID: " ++ u ++ "): " ++ m)
  | 3 => exists m s, e = TokenExchangeError m s
  | 4 => exists m, e = AuthenticationError
                         ("Failed to get user info (UID: " ++ u ++ "): " ++ m)
  | 5 => exists m, e = PlainError m          (* the TypeError of a null response *)
  | 6 => exists m, e = InjectionError ("Failed to add IndexedDB injection script: " ++ m)
  | 8 => exists m, e = PlainError m          (* page.waitForTimeout rejects *)
  | _ => False
  end.

(** One step: its calls all belong to step [k], its failures satisfy [err]. *)
Definition StepRun {A} (k : nat) (err : exn -> Prop) (m : M A) : Prop :=
  forall w r w', m w = (r, w') ->
    exists l, trace w' = l ++ trace w /\
              Forall (fun ev => step_of_event ev = k) l /\
              (forall e, r = Throw e -> err e).

(** The pipeline from step [k] on. *)
Definition Tail {A} (u : string) (k : nat) (m : M A) : Prop :=
  forall w r w', m w = (r, w') ->
    exists l, trace w' = l ++ trace w /\
              nonincreasing (map step_of_event l) = true /\
              Forall (fun ev => k <= step_of_event ev)%nat l /\
              (forall e, r = Throw e ->
                 exists j, (k <= j)%nat /\ step_error u j e /\
                           Forall (fun ev => step_of_event ev <= j)%nat l).

Lemma nonincreasing_app (l1 l2 : list nat) :
  nonincreasing l1 = true -> nonincreasing l2 = true ->
  Forall (fun x => Forall (fun y => (y <= x)%nat) l2) l1 ->
  nonincreasing (l1 ++ l2) = true.
Proof.
  induction l1 as [|x l1 IH]; simpl; intros H1 H2 H; [exact H2|].
  inversion H as [|? ? Hx Hrest]; subst.
  destruct l1 as [|y l1'].
  - simpl. destruct l2 as [|z l2']; [reflexivity|].
    inversion Hx; subst. apply andb_true_intro; split; [apply Nat.leb_le; auto|exact H2].
  - apply andb_true_iff in H1 as [Hyx H1].
    change ((y :: l1') ++ l2) with (y :: (l1' ++ l2)).
    apply andb_true_intro; split; [exact Hyx|].
    apply IH; auto.
Qed.

Lemma nonincreasing_const (k : nat) (l : list event) :
  Forall (fun ev => step_of_event ev = k) l -> nonincreasing (map step_of_event l) = true.
Proof.
  induction l as [|a l IH]; intros H; [reflexivity|].
  apply Forall_cons_iff in H as [Ha Hl].
  destruct l as [|b l']; [reflexivity|].
  pose proof (Forall_inv Hl) as Hb.
  cbn [map nonincreasing]. apply andb_true_intro; split.
  - simpl in Hb. rewrite Ha, Hb. apply Nat.leb_refl.
  - exact (IH Hl).
Qed.

Lemma Tail_bind {A B} u k err (m : M A) (c : A -> M B) :
  StepRun k err m -> (forall e, err e -> step_error u k e) ->
  (forall a, Tail u (S k) (c a)) -> Tail u k (bind m c).
Proof.
  intros Hm Herr Hc w r w' H. unfold bind in H.
  destruct (m w) as [[a|e] w1] eqn:Em.
  - destruct (Hm _ _ _ Em) as (l1 & T1 & F1 & _).
    destruct (Hc a _ _ _ H) as (l2 & T2 & N2 & F2 & E2).
    exists (l2 ++ l1). rewrite T2, T1, app_assoc. split; [reflexivity|].
    split; [|split].
    + rewrite map_app. apply nonincreasing_app.
      * exact N2.
      * exact (nonincreasing_const k l1 F1).
      * apply Forall_map. eapply Forall_impl; [|exact F2]. intros x Hx.
        apply Forall_map. eapply Forall_impl; [|exact F1]. intros y Hy. cbv beta in *. lia.
    + apply Forall_app; split.
      * eapply Forall_impl; [|exact F2]. simpl. intros. lia.
      * eapply Forall_impl; [|exact F1]. simpl. intros. lia.
    + intros e He. destruct (E2 e He) as (j & Hj & Hs & Fj).
      exists j. split; [lia|]. split; [exact Hs|].
      apply Forall_app; split; [exact Fj|].
      eapply Forall_impl; [|exact F1]. simpl. intros. lia.
  - inversion H; subst. destruct (Hm _ _ _ Em) as (l1 & T1 & F1 & E1).
    exists l1. split; [exact T1|]. split; [|split].
    + eapply nonincreasing_const; eauto.
    + eapply Forall_impl; [|exact F1]. simpl. intros. lia.
    + intros e' He'. inversion He'; subst. exists k. split; [lia|].
      split; [apply Herr, E1; reflexivity|].
      eapply Forall_impl; [|exact F1]. simpl. intros. lia.
Qed.

(** Case analysis on every collaborator result of a run [H]. *)
Ltac split_run H :=
  repeat (cbn in H;
          match type of H with
          | context [match ?x with _ => _ end] =>
              lazymatch x with
              | context [match _ with _ => _ end] => fail
              | _ => destruct x
              end
          end).

Ltac prefix_of t base :=
  lazymatch t with
  | base => constr:(@nil event)
  | ?x :: ?t' => let r := prefix_of t' base in constr:(x :: r)
  end.

Ltac new_events :=
  lazymatch goal with
  | |- exists l, trace ?w' = l ++ trace ?w /\ _ =>
      let t := eval simpl in (trace w') in
      let l := prefix_of t (trace w) in
      exists l; split; [reflexivity|]
  end.

Ltac finish_step :=
  new_events; split; [repeat constructor|];
  intros ? He; inversion He; subst; simpl; repeat eexists.

Ltac unfold_monad H :=
  unfold try_catch, bind, get_world, call_unit, call, emit, set_adminInitialized,
         throw, ret, date_now in H.

Lemma StepRun_initializeAdmin E u s : StepRun 1 (step_error u 1) (initializeAdmin E s).
Proof.
  intros w r w' H. unfold initializeAdmin in H. unfold_monad H.
  split_run H; inversion H; subst; finish_step.
Qed.

Lemma StepRun_createCustomToken E u : StepRun 2 (step_error u 2) (createCustomToken E u).
Proof.
  intros w r w' H. unfold createCustomToken in H. unfold_monad H.
  split_run H; inversion H; subst; finish_step.
Qed.

Lemma StepRun_exchangeCustomToken E u ct ak :
  StepRun 3 (step_error u 3) (exchangeCustomToken E ct ak).
Proof.
  intros w r w' H. unfold exchangeCustomToken, fetch_call in H. unfold_monad H.
  split_run H; inversion H; subst; finish_step.
Qed.

Lemma StepRun_getUserRecord E u : StepRun 4 (step_error u 4) (getUserRecord E u).
Proof.
  intros w r w' H. unfold getUserRecord in H. unfold_monad H.
  split_run H; inversion H; subst; finish_step.
Qed.

Lemma StepRun_createAuthData E u ak tr ur :
  StepRun 5 (step_error u 5) (createAuthData E u ak tr ur).
Proof.
  intros w r w' H. rewrite createAuthData_run in H.
  destruct (nullish tr); inversion H; subst; finish_step.
Qed.

Lemma StepRun_addInitScript E u d :
  StepRun 6 (step_error u 6)
    (try_catch (call_unit (EvAddInitScript d) (add_init_script E d))
       (fun error => throw (InjectionError
                              ("Failed to add IndexedDB injection script: " ++
                               message error)))).
Proof.
  intros w r w' H. unfold_monad H.
  split_run H; inversion H; subst; finish_step.
Qed.

Lemma StepRun_goto E :
  StepRun 7 (fun _ => False) (try_catch (call_unit (EvGoto "/") (goto E "/")) (fun _ => ret tt)).
Proof.
  intros w r w' H. unfold_monad H.
  split_run H; inversion H; subst; finish_step.
Qed.

Lemma Tail_wait E u n :
  Tail u 8 (call_unit (EvWaitForTimeout n) (wait_for_timeout E n)).
Proof.
  intros w r w' H. unfold call_unit in H. rewrite call_eq in H.
  exists [EvWaitForTimeout n]. inversion H; subst. repeat split; [repeat constructor|].
  intros e He. destruct (wait_for_timeout E n) as [m|]; inversion He; subst.
  exists 8%nat. split; [lia|]. split; [eexists; reflexivity|repeat constructor].
Qed.

Lemma Tail_inject E cfg opts : Tail (uid cfg) 1 (inject E cfg opts).
Proof.
  unfold inject. cbv zeta.
  apply Tail_bind with (err := step_error (uid cfg) 1);
    [apply StepRun_initializeAdmin|auto|intros _].
  apply Tail_bind with (err := step_error (uid cfg) 2);
    [apply StepRun_createCustomToken|auto|intros ct].
  apply Tail_bind with (err := step_error (uid cfg) 3);
    [apply StepRun_exchangeCustomToken|auto|intros tr].
  apply Tail_bind with (err := step_error (uid cfg) 4);
    [apply StepRun_getUserRecord|auto|intros ur].
  apply Tail_bind with (err := step_error (uid cfg) 5);
    [apply StepRun_createAuthData|auto|intros d].
  apply Tail_bind with (err := step_error (uid cfg) 6);
    [apply StepRun_addInitScript|auto|intros _].
  apply Tail_bind with (err := fun _ => False);
    [apply StepRun_goto|contradiction|intros _].
  apply Tail_wait.
Qed.

End PipelineFacts.

Module InjectProps.
Import MonadFacts Firebase FirebaseValidate FirebaseFacts PipelineFacts.
Local Open Scope list_scope.

Lemma createCustomToken_run_Ok E u ct w :
  create_custom_token E u = inr ct ->
  createCustomToken E u w = (Ok ct, after (EvCreateCustomToken u) w).
Proof.
  intros H. unfold createCustomToken, try_catch, call, bind, emit.
  rewrite H. reflexivity.
Qed.

Lemma exchangeCustomToken_run_Ok E ct ak r tr w :
  fetch E (exchange_url ak) ct = FetchResponds r -> ok r = true ->
  json_result r = inr tr ->
  exchangeCustomToken E ct ak w =
  (Ok tr, after EvResponseJson (after (EvFetch (exchange_url ak) ct) w)).
Proof.
  intros Hf Hok Hj. unfold exchangeCustomToken, fetch_call, try_catch, call, bind, emit.
  cbv zeta. rewrite Hf. simpl. rewrite Hok. simpl. rewrite Hj. reflexivity.
Qed.

Lemma getUserRecord_run_fail E u msg w :
  get_user E u = inl msg ->
  getUserRecord E u w =
  (Throw (AuthenticationError
            ("Failed to get user info (UID: " ++ u ++ "): " ++ msg)%string),
   after (EvGetUser u) w).
Proof.
  intros H. unfold getUserRecord, try_catch, call, bind, emit.
  rewrite H. reflexivity.
Qed.

(** C6: if the exchange succeeds and the profile lookup then fails with
    [msg], [inject] throws an [AuthenticationError] naming the uid, and
    the run has made no call of step 5 or later (in particular no
    [page.addInitScript]). More generally, in every run of [inject] the
    external calls happen in step order (the trace, newest first, has
    non-increasing step numbers) and a failure is the error of some step
    [j] ([step_error]: the wrapped errors of steps 1, 2, 4 and 6, the
    [TokenExchangeError] of step 3, the [TypeError] of step 5 on a [null]
    token response, or the rejection of [page.waitForTimeout] at step 8)
    with no call of a step after [j] in the run. *)
Theorem inject_profile_failure_short_circuit :
  (forall E cfg opts w w1 ct r tr msg,
     initializeAdmin E (serviceAccount cfg) w = (Ok tt, w1) ->
     create_custom_token E (uid cfg) = inr ct ->
     fetch E (exchange_url (apiKey cfg)) ct = FetchResponds r ->
     ok r = true ->
     json_result r = inr tr ->
     get_user E (uid cfg) = inl msg ->
     exists w' l,
       inject E cfg opts w =
         (Throw (AuthenticationError
                   ("Failed to get user info (UID: " ++ uid cfg ++ "): " ++ msg)%string),
          w') /\
       trace w' = l ++ trace w /\
       Forall (fun ev => step_of_event ev <= 4)%nat l /\
       (forall d, ~ In (EvAddInitScript d) l)) /\
  (forall E cfg opts w r w',
     inject E cfg opts w = (r, w') ->
     exists l,
       trace w' = l ++ trace w /\
       nonincreasing (map step_of_event l) = true /\
       (forall e, r = Throw e ->
          exists j, step_error (uid cfg) j e /\
                    Forall (fun ev => step_of_event ev <= j)%nat l)).
Proof.
  split.
  - intros E cfg opts w w1 ct r tr msg H1 Hct Hf Hok Hj Hu.
    destruct (StepRun_initializeAdmin E (uid cfg) (serviceAccount cfg) _ _ _ H1)
      as (l1 & T1 & F1 & _).
    set (l := [EvGetUser (uid cfg); EvResponseJson;
               EvFetch (exchange_url (apiKey cfg)) ct;
               EvCreateCustomToken (uid cfg)] ++ l1).
    assert (Fl : Forall (fun ev => step_of_event ev <= 4)%nat l).
    { unfold l. apply Forall_app; split; [repeat constructor; simpl; lia|].
      eapply Forall_impl; [|exact F1]. simpl; intros; lia. }
    eexists; exists l; split; [|split; [|split]].
    + unfold inject. cbv zeta. unfold bind at 1. rewrite H1.
      unfold bind at 1. rewrite (createCustomToken_run_Ok _ _ _ _ Hct).
      unfold bind at 1. rewrite (exchangeCustomToken_run_Ok _ _ _ _ _ _ Hf Hok Hj).
      unfold bind at 1. rewrite (getUserRecord_run_fail _ _ _ _ Hu).
      reflexivity.
    + simpl. rewrite T1. reflexivity.
    + exact Fl.
    + intros d Hin. rewrite Forall_forall in Fl. specialize (Fl _ Hin).
      simpl in Fl. lia.
  - intros E cfg opts w r w' H.
    destruct (Tail_inject E cfg opts w r w' H) as (l & T & N & _ & Er).
    exists l. split; [exact T|]. split; [exact N|].
    intros e He. destruct (Er e He) as (j & _ & Hs & Fj). eauto.
Qed.

Lemma inject_profile_failure_short_circuit_witness :
  exists w' l,
    inject ScenarioA.mock_env
      {| serviceAccount := "{}"; apiKey := "K"; uid := "u2" |}
      ScenarioA.options ScenarioA.world0 =
      (Throw (AuthenticationError
                "Failed to get user info (UID: u2): There is no user record"), w') /\
    trace w' = l ++ trace ScenarioA.world0 /\
    Forall (fun ev => step_of_event ev <= 4)%nat l /\
    (forall d, ~ In (EvAddInitScript d) l).
Proof.
  apply (proj1 inject_profile_failure_short_circuit
           ScenarioA.mock_env
           {| serviceAccount := "{}"; apiKey := "K"; uid := "u2" |}
           ScenarioA.options ScenarioA.world0
           (snd (initializeAdmin ScenarioA.mock_env "{}" ScenarioA.world0))
           "custom-token"
           {| status := 200; text_result := inr "";
              json_result := inr ScenarioA.tokenResponse |}
           ScenarioA.tokenResponse "There is no user record");
    vm_compute; reflexivity.
Defined.

End InjectProps.

Module ExchangeProps.
Import MonadFacts Firebase FirebaseFacts.

(** C4: every error thrown by [exchangeCustomToken] is a
    [TokenExchangeError]; which one is fixed by the outcome of [fetch]: a
    non-2xx response whose body is read carries its status and the body in
    the message; a transport failure of [fetch], of [response.text()] or
    of [response.json()] (an unparsable body) carries no status. *)
Theorem exchangeCustomToken_errors :
  forall E ct ak w e w',
    exchangeCustomToken E ct ak w = (Throw e, w') ->
    code e = Some TOKEN_EXCHANGE_FAILED /\
    match fetch E (exchange_url ak) ct with
    | FetchRejects msg =>
        e = TokenExchangeError ("Token exchange request failed: " ++ msg) None
    | FetchResponds r =>
        if ok r then
          exists msg, json_result r = inl msg /\
            e = TokenExchangeError ("Token exchange request failed: " ++ msg) None
        else
          match text_result r with
          | inr body =>
              e = TokenExchangeError ("Firebase REST API error: " ++ body)
                                     (Some (status r))
          | inl msg =>
              e = TokenExchangeError ("Token exchange request failed: " ++ msg) None
          end
    end.
Proof.
  intros E ct ak w e w' H.
  unfold exchangeCustomToken, fetch_call, try_catch, call, bind, emit, throw, ret in H.
  cbv zeta in H.
  destruct (fetch E (exchange_url ak) ct) as [msg|r].
  - simpl in H. inversion H; subst. split; reflexivity.
  - simpl in H. destruct (ok r).
    + simpl in H. destruct (json_result r) as [msg|d]; simpl in H; inversion H; subst.
      split; [reflexivity|]. eauto.
    + simpl in H. destruct (text_result r) as [msg|body]; simpl in H;
        inversion H; subst; split; reflexivity.
Qed.

Lemma exchangeCustomToken_errors_witness :
  exists e w',
    exchangeCustomToken ScenarioDenied.env_denied "custom-token" "K" ScenarioA.world0
      = (Throw e, w') /\
    code e = Some TOKEN_EXCHANGE_FAILED /\
    e = TokenExchangeError "Firebase REST API error: PERMISSION_DENIED" (Some 403%Z).
Proof.
  exists (TokenExchangeError "Firebase REST API error: PERMISSION_DENIED" (Some 403%Z)).
  eexists. split; [vm_compute; reflexivity|].
  pose proof (exchangeCustomToken_errors ScenarioDenied.env_denied "custom-token" "K"
                ScenarioA.world0 _ _ ltac:(vm_compute; reflexivity)) as [Hc Hm].
  split; [exact Hc|]. simpl in Hm. exact Hm.
Defined.

End ExchangeProps.

(** ** The [adminInitialized] flag *)
Module AdminFlagFacts.
Import MonadFacts Firebase FirebaseFacts.
Local Open Scope list_scope.

(** [m] never clears a set flag. *)
Definition FlagMono {A} (m : M A) : Prop :=
  forall w r w', m w = (r, w') -> adminInitialized w = true -> adminInitialized w' = true.

Lemma FlagMono_ret {A} (a : A) : FlagMono (ret a).
Proof. intros w r w' H; inversion H; subst; auto. Qed.

Lemma FlagMono_throw {A} e : FlagMono (@throw A e).
Proof. intros w r w' H; inversion H; subst; auto. Qed.

Lemma FlagMono_get_world : FlagMono get_world.
Proof. intros w r w' H; inversion H; subst; auto. Qed.

Lemma FlagMono_emit ev : FlagMono (emit ev).
Proof. intros w r w' H; inversion H; subst; auto. Qed.

Lemma FlagMono_set_true : FlagMono (set_adminInitialized true).
Proof. intros w r w' H; inversion H; subst; auto. Qed.

Lemma FlagMono_bind {A B} (m : M A) (k : A -> M B) :
  FlagMono m -> (forall a, FlagMono (k a)) -> FlagMono (bind m k).
Proof.
  intros Hm Hk w r w'. unfold bind.
  destruct (m w) as [[a|e] w1] eqn:E; intros H Hw.
  - eapply Hk; [exact H|]. eapply Hm; eauto.
  - inversion H; subst. eapply Hm; eauto.
Qed.

Lemma FlagMono_try_catch {A} (m : M A) h :
  FlagMono m -> (forall e, FlagMono (h e)) -> FlagMono (try_catch m h).
Proof.
  intros Hm Hh w r w'. unfold try_catch.
  destruct (m w) as [[a|e] w1] eqn:E; intros H Hw.
  - inversion H; subst. eapply Hm; eauto.
  - eapply Hh; [exact H|]. eapply Hm; eauto.
Qed.

Create HintDb flag.
#[global] Hint Resolve FlagMono_ret FlagMono_throw FlagMono_get_world FlagMono_emit
  FlagMono_set_true : flag.

Ltac solve_flag :=
  repeat (intros;
          match goal with
          | |- FlagMono (bind _ _) => apply FlagMono_bind
          | |- FlagMono (try_catch _ _) => apply FlagMono_try_catch
          | |- FlagMono (match ?x with _ => _ end) => destruct x
          | |- FlagMono (if ?x then _ else _) => destruct x
          | |- FlagMono _ => solve [auto with flag]
          end).

Lemma FlagMono_call {A} ev (r : string + A) : FlagMono (call ev r).
Proof. unfold call. solve_flag. Qed.

Lemma FlagMono_call_unit ev r : FlagMono (call_unit ev r).
Proof. unfold call_unit. apply FlagMono_call. Qed.

Lemma FlagMono_date_now : FlagMono date_now.
Proof. unfold date_now. solve_flag. Qed.

#[global] Hint Resolve FlagMono_call FlagMono_call_unit FlagMono_date_now : flag.

Lemma FlagMono_inject E cfg opts : FlagMono (inject E cfg opts).
Proof.
  unfold inject, initializeAdmin, createCustomToken, exchangeCustomToken, fetch_call,
    getUserRecord, createAuthData.
  cbv zeta. solve_flag.
Qed.

(** With the flag clear, [initializeAdmin] starts with [JSON.parse]. *)
Lemma initializeAdmin_attempt E s w r w1 :
  adminInitialized w = false -> initializeAdmin E s w = (r, w1) ->
  exists l, trace w1 = l ++ EvJsonParse s :: trace w.
Proof.
  intros Hf H. unfold initializeAdmin, try_catch, bind, get_world, call, call_unit,
    emit, throw, ret, set_adminInitialized in H.
  rewrite Hf in H. cbn in H.
  destruct (json_parse E s) as [m|v]; cbn in H.
  - inversion H; subst. exists []. reflexivity.
  - destruct (initialize_app E v); cbn in H; inversion H; subst;
      [exists [EvInitializeApp v] | exists [EvInitializeApp v]]; reflexivity.
Qed.

End AdminFlagFacts.

Module AdminFlagProps.
Import MonadFacts Firebase FirebaseFacts AdminFlagFacts.
Local Open Scope list_scope.

(** C10: a failed [initializeAdmin] leaves the flag clear and throws an
    [AuthenticationError]; a later [inject] with the flag clear starts a
    new attempt (its first call is [JSON.parse] of the service account); a
    successful [initializeAdmin] sets the flag; with the flag set,
    [initializeAdmin] returns at once and changes nothing, and no run of
    [inject] clears it; [resetAdminInitialization] clears it and nothing
    else. *)
Theorem initializeAdmin_flag_lifecycle :
  (forall E s w e w',
     adminInitialized w = false ->
     initializeAdmin E s w = (Throw e, w') ->
     adminInitialized w' = false /\
     exists m, e = AuthenticationError ("Failed to initialize Firebase Admin SDK: " ++ m)) /\
  (forall E cfg opts w r w',
     adminInitialized w = false ->
     inject E cfg opts w = (r, w') ->
     exists l, trace w' = l ++ EvJsonParse (FirebaseValidate.serviceAccount cfg) :: trace w) /\
  (forall E s w w',
     initializeAdmin E s w = (Ok tt, w') -> adminInitialized w' = true) /\
  (forall E s w,
     adminInitialized w = true -> initializeAdmin E s w = (Ok tt, w)) /\
  (forall E cfg opts w r w',
     adminInitialized w = true -> inject E cfg opts w = (r, w') ->
     adminInitialized w' = true) /\
  (forall w,
     resetAdminInitialization w =
     (Ok tt, {| adminInitialized := false; cachedConfig := cachedConfig w;
                clock := clock w; trace := trace w |})).
Proof.
  split; [|split; [|split; [|split; [|split]]]].
  - intros E s w e w' Hf H.
    unfold initializeAdmin, try_catch, bind, get_world, call, call_unit,
      emit, throw, ret, set_adminInitialized in H.
    rewrite Hf in H. cbn in H.
    destruct (json_parse E s) as [m|v]; cbn in H.
    + inversion H; subst. simpl. split; [exact Hf|eauto].
    + destruct (initialize_app E v); cbn in H; inversion H; subst.
      simpl. split; [exact Hf|eauto].
  - intros E cfg opts w r w' Hf H.
    unfold inject in H. cbv zeta in H. unfold bind at 1 in H.
    destruct (initializeAdmin E (FirebaseValidate.serviceAccount cfg) w)
      as [r1 w1] eqn:E1.
    destruct (initializeAdmin_attempt _ _ _ _ _ Hf E1) as (l1 & T1).
    destruct r1 as [[]|e].
    + assert (X : extends w1 w').
      { eapply Frame_run; [|exact H].
        unfold createAuthData; solve_frame;
          auto using Frame_createCustomToken, Frame_exchangeCustomToken,
                     Frame_getUserRecord with frame. }
      destruct X as [_ [l2 T2]]. exists (l2 ++ l1). rewrite T2, T1, app_assoc.
      reflexivity.
    + inversion H; subst. eauto.
  - intros E s w w' H.
    unfold initializeAdmin, try_catch, bind, get_world, call, call_unit,
      emit, throw, ret, set_adminInitialized in H.
    destruct (adminInitialized w) eqn:Hf; cbn in H.
    + inversion H; subst. exact Hf.
    + destruct (json_parse E s) as [m|v]; cbn in H; [discriminate|].
      destruct (initialize_app E v); cbn in H; inversion H; subst. reflexivity.
  - intros E s w Ht. unfold initializeAdmin, bind, get_world, ret.
    rewrite Ht. reflexivity.
  - intros E cfg opts w r w' Ht H. exact (FlagMono_inject E cfg opts w r w' H Ht).
  - intros w. reflexivity.
Qed.

Lemma initializeAdmin_flag_lifecycle_witness :
  adminInitialized
    (snd (initializeAdmin ScenarioA.mock_env "{}" ScenarioA.world0)) = true /\
  initializeAdmin ScenarioBadServiceAccount.env_bad_json "{" ScenarioA.world0 =
  (Throw (AuthenticationError
            "Failed to initialize Firebase Admin SDK: Unexpected token } in JSON"),
   after (EvJsonParse "{") ScenarioA.world0) /\
  adminInitialized (after (EvJsonParse "{") ScenarioA.world0) = false.
Proof.
  destruct initializeAdmin_flag_lifecycle as (H1 & _ & H3 & _).
  split; [|split].
  - apply (H3 ScenarioA.mock_env "{}" ScenarioA.world0).
    vm_compute. reflexivity.
  - vm_compute. reflexivity.
  - refine (proj1 (H1 ScenarioBadServiceAccount.env_bad_json "{" ScenarioA.world0 _ _
                      eq_refl _)).
    vm_compute. reflexivity.
Defined.

End AdminFlagProps.

(** ** Facts about the configuration loader *)
Module ConfigFacts.
Import MonadFacts Config.
Local Open Scope list_scope.

Lemma append_empty_r (a : string) : (a ++ "")%string = a.
Proof. induction a as [|x a IH]; simpl; [reflexivity|now rewrite IH]. Qed.

Lemma append_assoc (a b c : string) : ((a ++ b) ++ c)%string = (a ++ (b ++ c))%string.
Proof. induction a as [|x a IH]; simpl; [reflexivity|now rewrite IH]. Qed.

Lemma join_contains sep (f : string -> string) (ps : list string) p :
  In p ps -> exists pre post, join sep (map f ps) = (pre ++ f p ++ post)%string.
Proof.
  induction ps as [|x ps IH]; intros H; [destruct H|].
  destruct H as [<-|H].
  - destruct ps as [|y ps'].
    + exists "", "". simpl. now rewrite append_empty_r.
    + exists "", (sep ++ join sep (map f (y :: ps')))%string. reflexivity.
  - destruct ps as [|y ps']; [destruct H|].
    destruct (IH H) as (pre & post & Hj).
    exists (f x ++ sep ++ pre)%string, post.
    change (join sep (map f (x :: y :: ps')))
      with (f x ++ sep ++ join sep (map f (y :: ps')))%string.
    rewrite Hj, !append_assoc. reflexivity.
Qed.

Lemma find_in_run E cwd names w :
  find_in E cwd names w =
  (Ok (snd (probe E (map (path_resolve E cwd) names))),
   {| adminInitialized := adminInitialized w; cachedConfig := cachedConfig w;
      clock := clock w;
      trace := rev (map EvExistsSync (fst (probe E (map (path_resolve E cwd) names))))
               ++ trace w |}).
Proof.
  revert w. induction names as [|n names IH]; intros w.
  - destruct w; reflexivity.
  - cbn [find_in map probe]. unfold existsSync, bind, emit, ret.
    destruct (exists_sync E (path_resolve E cwd n)) eqn:X.
    + reflexivity.
    + cbv beta iota. rewrite IH. destruct (probe E (map (path_resolve E cwd) names)) as [t f].
      simpl. rewrite <- app_assoc. reflexivity.
Qed.

Lemma probe_all_false E ps :
  (forall p, In p ps -> exists_sync E p = false) -> probe E ps = (ps, None).
Proof.
  induction ps as [|p ps IH]; intros H; [reflexivity|].
  simpl. rewrite (H p (or_introl eq_refl)).
  rewrite IH; [reflexivity|]. intros q Hq. apply H. right; exact Hq.
Qed.

Lemma probe_first E pre p post :
  Forall (fun q => exists_sync E q = false) pre -> exists_sync E p = true ->
  probe E (pre ++ p :: post) = (pre ++ [p], Some p).
Proof.
  induction pre as [|q pre IH]; intros Hpre Hp.
  - simpl. rewrite Hp. reflexivity.
  - apply Forall_cons_iff in Hpre as [Hq Hpre].
    simpl. rewrite Hq, (IH Hpre Hp). reflexivity.
Qed.

(** A cache miss: no cached config, or a falsy one. *)
Definition cache_miss (w : world) : Prop :=
  match cachedConfig w with Some c => truthy c = false | None => True end.

Lemma loadConfig_miss E cwd w :
  cache_miss w ->
  loadConfig E cwd w =
  let '(tried, found) := probe E (map (path_resolve E cwd) CONFIG_FILE_NAMES) in
  let w1 := {| adminInitialized := adminInitialized w; cachedConfig := cachedConfig w;
               clock := clock w; trace := rev (map EvExistsSync tried) ++ trace w |} in
  let not_found := ConfigNotFoundError (map (path_resolve E cwd) CONFIG_FILE_NAMES) in
  match found with
  | None => (Throw not_found, w1)
  | Some p => if String.eqb p "" then (Throw not_found, w1) else load_from E p w1
  end.
Proof.
  intros Hm. unfold loadConfig. cbv zeta. unfold bind at 1, get_world.
  unfold cache_miss in Hm.
  destruct (cachedConfig w) as [c|] eqn:Hc; [rewrite Hm|];
    unfold bind, findConfigPath; rewrite find_in_run;
    destruct (probe E (map (path_resolve E cwd) CONFIG_FILE_NAMES)) as [t [p|]];
    simpl; rewrite ?Hc; try destruct (String.eqb p ""); reflexivity.
Qed.

Lemma probe_head E p ps : exists t, fst (probe E (p :: ps)) = p :: t.
Proof.
  simpl. destruct (exists_sync E p); [exists []; reflexivity|].
  destruct (probe E ps) as [t f]. exists t. reflexivity.
Qed.

Lemma load_from_run E p w r w' :
  load_from E p w = (r, w') ->
  trace w' = EvImport (path_to_file_url E p) :: trace w /\
  (forall c, r = Ok c ->
     import_module E (path_to_file_url E p) = inr c /\ validateConfig c = Ok tt /\
     cachedConfig w' = Some c) /\
  (forall e, r = Throw e -> cachedConfig w' = cachedConfig w).
Proof.
  intros H. unfold load_from, try_catch, call_exn, bind, emit, throw, ret, of_outcome,
    set_cachedConfig in H. cbv zeta in H.
  destruct (import_module E (path_to_file_url E p)) as [m|c] eqn:Hi; cbn in H.
  - destruct m; cbn in H; inversion H; subst; simpl;
      (split; [reflexivity|split; [intros ? Hc'; discriminate|reflexivity]]).
  - destruct (validateConfig c) as [[]|e] eqn:Hv; cbn in H.
    + inversion H; subst. simpl. split; [reflexivity|].
      split; [intros c' Hc'; inversion Hc'; subst; auto|intros e He; discriminate].
    + destruct e; cbn in H; inversion H; subst; simpl;
        (split; [reflexivity|split; [intros ? Hc'; discriminate|reflexivity]]).
Qed.

Lemma validateConfig_Ok_truthy c : validateConfig c = Ok tt -> truthy c = true.
Proof.
  unfold validateConfig, not_object. destruct (truthy c); simpl; [auto|discriminate].
Qed.

(** [m] leaves the cached configuration as it is. *)
Definition KeepsCache {A} (m : M A) : Prop :=
  forall w r w', m w = (r, w') -> cachedConfig w' = cachedConfig w.

Lemma KeepsCache_ret {A} (a : A) : KeepsCache (ret a).
Proof. intros w r w' H; inversion H; subst; auto. Qed.

Lemma KeepsCache_throw {A} e : KeepsCache (@throw A e).
Proof. intros w r w' H; inversion H; subst; auto. Qed.

Lemma KeepsCache_get_world : KeepsCache get_world.
Proof. intros w r w' H; inversion H; subst; auto. Qed.

Lemma KeepsCache_emit ev : KeepsCache (emit ev).
Proof. intros w r w' H; inversion H; subst; auto. Qed.

Lemma KeepsCache_set_adminInitialized b : KeepsCache (set_adminInitialized b).
Proof. intros w r w' H; inversion H; subst; auto. Qed.

Lemma KeepsCache_bind {A B} (m : M A) (k : A -> M B) :
  KeepsCache m -> (forall a, KeepsCache (k a)) -> KeepsCache (bind m k).
Proof.
  intros Hm Hk w r w'. unfold bind.
  destruct (m w) as [[a|e] w1] eqn:E; intros H.
  - rewrite (Hk a _ _ _ H). eapply Hm; eauto.
  - inversion H; subst. eapply Hm; eauto.
Qed.

Lemma KeepsCache_try_catch {A} (m : M A) h :
  KeepsCache m -> (forall e, KeepsCache (h e)) -> KeepsCache (try_catch m h).
Proof.
  intros Hm Hh w r w'. unfold try_catch.
  destruct (m w) as [[a|e] w1] eqn:E; intros H.
  - inversion H; subst. eapply Hm; eauto.
  - rewrite (Hh e _ _ _ H). eapply Hm; eauto.
Qed.

Create HintDb cache.
#[global] Hint Resolve KeepsCache_ret KeepsCache_throw KeepsCache_get_world KeepsCache_emit
  KeepsCache_set_adminInitialized : cache.

Ltac solve_keeps :=
  repeat (intros;
          match goal with
          | |- KeepsCache (bind _ _) => apply KeepsCache_bind
          | |- KeepsCache (try_catch _ _) => apply KeepsCache_try_catch
          | |- KeepsCache (match ?x with _ => _ end) => destruct x
          | |- KeepsCache (if ?x then _ else _) => destruct x
          | |- KeepsCache _ => solve [auto with cache]
          end).

Lemma KeepsCache_call {A} ev (r : string + A) : KeepsCache (call ev r).
Proof. unfold call. solve_keeps. Qed.

Lemma KeepsCache_call_unit ev r : KeepsCache (call_unit ev r).
Proof. unfold call_unit. apply KeepsCache_call. Qed.

Lemma KeepsCache_date_now : KeepsCache date_now.
Proof. unfold date_now. solve_keeps. Qed.

#[global] Hint Resolve KeepsCache_call KeepsCache_call_unit KeepsCache_date_now : cache.

Lemma KeepsCache_inject E cfg opts : KeepsCache (Firebase.inject E cfg opts).
Proof.
  unfold Firebase.inject, Firebase.initializeAdmin, Firebase.createCustomToken,
    Firebase.exchangeCustomToken, Firebase.fetch_call, Firebase.getUserRecord,
    Firebase.createAuthData.
  cbv zeta. solve_keeps.
Qed.

End ConfigFacts.

Module ConfigProps.
Import MonadFacts Config ConfigFacts.
Local Open Scope list_scope.

(** C8, as stated, fails: with a configuration cached by an earlier call,
    [loadConfig] resolves with it although none of the candidate files
    exists, and it probes none of them. *)
Lemma loadConfig_cached_counterexample :
  (forall p, In p (map (path_resolve ScenarioA.mock_env ScenarioB.cwd) CONFIG_FILE_NAMES) ->
             exists_sync ScenarioA.mock_env p = false) /\
  loadConfig ScenarioA.mock_env ScenarioB.cwd ScenarioB.world_cached =
    (Ok ScenarioB.valid_config, ScenarioB.world_cached).
Proof. split; [intros p _; reflexivity|reflexivity]. Qed.

(** C8 (amended): when no configuration is cached, [loadConfig] probes
    the candidates [resolve(cwd, name)] of [CONFIG_FILE_NAMES] in order
    and stops at the first that exists, which is the one it imports (and,
    when valid, returns and caches); when none exists it has probed them
    all and rejects with [ConfigNotFoundError] of exactly those paths,
    whose message contains every one of them. *)
Theorem loadConfig_discovery :
  forall E cwd w r w',
    cachedConfig w = None ->
    (forall name, In name CONFIG_FILE_NAMES -> path_resolve E cwd name <> "") ->
    loadConfig E cwd w = (r, w') ->
    ((forall p, In p (map (path_resolve E cwd) CONFIG_FILE_NAMES) ->
                exists_sync E p = false) ->
       r = Throw (ConfigNotFoundError (map (path_resolve E cwd) CONFIG_FILE_NAMES)) /\
       trace w' = rev (map EvExistsSync (map (path_resolve E cwd) CONFIG_FILE_NAMES))
                  ++ trace w /\
       (forall p, In p (map (path_resolve E cwd) CONFIG_FILE_NAMES) ->
          exists pre post,
            message (ConfigNotFoundError (map (path_resolve E cwd) CONFIG_FILE_NAMES))
            = (pre ++ p ++ post)%string)) /\
    (forall pre p post,
       map (path_resolve E cwd) CONFIG_FILE_NAMES = pre ++ p :: post ->
       Forall (fun q => exists_sync E q = false) pre ->
       exists_sync E p = true ->
       trace w' = EvImport (path_to_file_url E p) ::
                  rev (map EvExistsSync (pre ++ [p])) ++ trace w /\
       (forall c, r = Ok c ->
          import_module E (path_to_file_url E p) = inr c /\
          validateConfig c = Ok tt /\ cachedConfig w' = Some c)).
Proof.
  intros E cwd w r w' Hnone Hne H.
  assert (Hm : cache_miss w) by (unfold cache_miss; rewrite Hnone; exact I).
  rewrite (loadConfig_miss E cwd w Hm) in H.
  split.
  - intros Hall. rewrite (probe_all_false _ _ Hall) in H. cbn zeta in H.
    inversion H; subst. split; [reflexivity|]. split; [reflexivity|].
    intros p Hp. unfold message.
    destruct (join_contains newline (fun q => "  - " ++ q)%string _ p Hp)
      as (pre & post & Hj).
    rewrite Hj.
    exists ("設定ファイルが見つかりません。以下のパスを探しました:" ++ newline ++ pre ++ "  - ")%string,
           post.
    rewrite !append_assoc. reflexivity.
  - intros pre p post Hpaths Hpre Hp.
    rewrite Hpaths, (probe_first _ _ _ _ Hpre Hp) in H. cbn zeta in H.
    assert (Hpne : p <> "").
    { assert (Hin : In p (map (path_resolve E cwd) CONFIG_FILE_NAMES))
        by (rewrite Hpaths; apply in_or_app; right; left; reflexivity).
      apply in_map_iff in Hin as (name & <- & Hn). exact (Hne name Hn). }
    apply String.eqb_neq in Hpne. rewrite Hpne in H.
    destruct (load_from_run _ _ _ _ _ H) as (T & Ok_ & _).
    split; [exact T|]. intros c Hc. destruct (Ok_ c Hc) as (Hi & Hv & Hcache).
    auto.
Qed.

Lemma loadConfig_discovery_witness :
  loadConfig ScenarioA.mock_env ScenarioB.cwd ScenarioA.world0 =
    (Throw (ConfigNotFoundError
              ["/proj/playwright-auth.config.ts"; "/proj/playwright-auth.config.js";
               "/proj/playwright-auth.config.mjs"]),
     snd (loadConfig ScenarioA.mock_env ScenarioB.cwd ScenarioA.world0)) /\
  exists pre post,
    message (ConfigNotFoundError
               ["/proj/playwright-auth.config.ts"; "/proj/playwright-auth.config.js";
                "/proj/playwright-auth.config.mjs"])
    = (pre ++ "/proj/playwright-auth.config.mjs" ++ post)%string.
Proof.
  assert (Hrun : loadConfig ScenarioA.mock_env ScenarioB.cwd ScenarioA.world0 =
                 (fst (loadConfig ScenarioA.mock_env ScenarioB.cwd ScenarioA.world0),
                  snd (loadConfig ScenarioA.mock_env ScenarioB.cwd ScenarioA.world0)))
    by (destruct (loadConfig ScenarioA.mock_env ScenarioB.cwd ScenarioA.world0); reflexivity).
  destruct (proj1 (loadConfig_discovery ScenarioA.mock_env ScenarioB.cwd ScenarioA.world0
                     _ _ eq_refl ltac:(intros n Hn; discriminate) Hrun)
                  ltac:(intros p _; reflexivity)) as (Hr & _ & Hc).
  split.
  - rewrite Hrun at 1. rewrite Hr. reflexivity.
  - apply Hc. simpl. right; right; left; reflexivity.
Defined.

(** C9: a successful [loadConfig] leaves its result in the cache; while the
    cache holds it, [loadConfig] at any [cwd] (and with any collaborators)
    returns that same value and does nothing else (no probe, no import, no
    validation); running the Firebase pipeline does not touch the cache;
    [clearConfigCache] empties it and changes nothing else; a failed load
    from an empty cache leaves it empty, and a load from an empty cache
    starts discovery over (its first call probes the first candidate). *)
Theorem loadConfig_cache :
  (forall E cwd w c w',
     loadConfig E cwd w = (Ok c, w') -> cachedConfig w' = Some c /\ truthy c = true) /\
  (forall E cwd w c,
     cachedConfig w = Some c -> truthy c = true -> loadConfig E cwd w = (Ok c, w)) /\
  (forall E cfg opts w r w',
     Firebase.inject E cfg opts w = (r, w') -> cachedConfig w' = cachedConfig w) /\
  (forall w,
     clearConfigCache w =
     (Ok tt, {| adminInitialized := adminInitialized w; cachedConfig := None;
                clock := clock w; trace := trace w |})) /\
  (forall E cwd w e w',
     cachedConfig w = None -> loadConfig E cwd w = (Throw e, w') -> cachedConfig w' = None) /\
  (forall E cwd w r w',
     cachedConfig w = None -> loadConfig E cwd w = (r, w') ->
     exists l, trace w' = l ++ EvExistsSync (path_resolve E cwd "playwright-auth.config.ts")
                                :: trace w).
Proof.
  split; [|split; [|split; [|split; [|split]]]].
  - intros E cwd w c w' H.
    destruct (cachedConfig w) as [c0|] eqn:Hc;
      [destruct (truthy c0) eqn:Ht|].
    + unfold loadConfig, bind, get_world, ret in H. rewrite Hc, Ht in H.
      inversion H; subst. auto.
    + assert (Hm : cache_miss w) by (unfold cache_miss; rewrite Hc; exact Ht).
      rewrite (loadConfig_miss E cwd w Hm) in H. cbn zeta in H.
      destruct (probe E (map (path_resolve E cwd) CONFIG_FILE_NAMES)) as [t [p|]];
        [destruct (String.eqb p "")|]; try discriminate.
      destruct (load_from_run _ _ _ _ _ H) as (_ & Ok_ & _).
      destruct (Ok_ c eq_refl) as (_ & Hv & Hcache).
      split; [exact Hcache|exact (validateConfig_Ok_truthy c Hv)].
    + assert (Hm : cache_miss w) by (unfold cache_miss; rewrite Hc; exact I).
      rewrite (loadConfig_miss E cwd w Hm) in H. cbn zeta in H.
      destruct (probe E (map (path_resolve E cwd) CONFIG_FILE_NAMES)) as [t [p|]];
        [destruct (String.eqb p "")|]; try discriminate.
      destruct (load_from_run _ _ _ _ _ H) as (_ & Ok_ & _).
      destruct (Ok_ c eq_refl) as (_ & Hv & Hcache).
      split; [exact Hcache|exact (validateConfig_Ok_truthy c Hv)].
  - intros E cwd w c Hc Ht. unfold loadConfig, bind, get_world, ret.
    rewrite Hc, Ht. reflexivity.
  - intros E cfg opts w r w' H. exact (KeepsCache_inject E cfg opts w r w' H).
  - intros w. reflexivity.
  - intros E cwd w e w' Hnone H.
    assert (Hm : cache_miss w) by (unfold cache_miss; rewrite Hnone; exact I).
    rewrite (loadConfig_miss E cwd w Hm) in H. cbn zeta in H.
    destruct (probe E (map (path_resolve E cwd) CONFIG_FILE_NAMES)) as [t [p|]];
      [destruct (String.eqb p "")|].
    + inversion H; subst. exact Hnone.
    + destruct (load_from_run _ _ _ _ _ H) as (_ & _ & Er).
      rewrite (Er e eq_refl). exact Hnone.
    + inversion H; subst. exact Hnone.
  - intros E cwd w r w' Hnone H.
    assert (Hm : cache_miss w) by (unfold cache_miss; rewrite Hnone; exact I).
    rewrite (loadConfig_miss E cwd w Hm) in H. cbn zeta in H.
    destruct (probe_head E (path_resolve E cwd "playwright-auth.config.ts")
                (map (path_resolve E cwd) (tl CONFIG_FILE_NAMES))) as [t0 Ht0].
    change (map (path_resolve E cwd) CONFIG_FILE_NAMES) with
      (path_resolve E cwd "playwright-auth.config.ts" ::
       map (path_resolve E cwd) (tl CONFIG_FILE_NAMES)) in H.
    destruct (probe E (path_resolve E cwd "playwright-auth.config.ts" ::
                       map (path_resolve E cwd) (tl CONFIG_FILE_NAMES))) as [t [p|]];
      simpl in Ht0; subst t; [destruct (String.eqb p "")|].
    + inversion H; subst. simpl. exists (rev (map EvExistsSync t0)).
      rewrite <- app_assoc. reflexivity.
    + destruct (load_from_run _ _ _ _ _ H) as (T & _ & _). rewrite T.
      exists (EvImport (path_to_file_url E p) :: rev (map EvExistsSync t0)).
      simpl. rewrite <- app_assoc. reflexivity.
    + inversion H; subst. simpl. exists (rev (map EvExistsSync t0)).
      rewrite <- app_assoc. reflexivity.
Qed.

Lemma loadConfig_cache_witness :
  loadConfig ScenarioA.mock_env "/elsewhere" ScenarioB.world_cached =
    (Ok ScenarioB.valid_config, ScenarioB.world_cached) /\
  cachedConfig (snd (loadConfig ScenarioA.mock_env ScenarioB.cwd ScenarioA.world0)) = None.
Proof.
  destruct loadConfig_cache as (_ & Hhit & _ & _ & Hfail & _).
  split.
  - apply Hhit; reflexivity.
  - apply (Hfail ScenarioA.mock_env ScenarioB.cwd ScenarioA.world0
             (ConfigNotFoundError (map (path_resolve ScenarioA.mock_env ScenarioB.cwd)
                                       CONFIG_FILE_NAMES))); [reflexivity|].
    vm_compute. reflexivity.
Defined.

End ConfigProps.

Module RegistryProps.
Import Registry.

(** C7: [getProvider], an exported function documented with
    [@throws Error if provider not found], does not throw for
    ["toString"], which is not a registered provider:
    [providers["toString"]] is the function inherited from
    [Object.prototype], which is truthy, so [getProvider] returns it. *)
Lemma getProvider_toString_counterexample :
  has_own providers "toString" = false /\
  getProvider "toString" = Ok (Function "toString").
Proof. split; reflexivity. Qed.

(** A name that is neither registered nor inherited from
    [Object.prototype] makes [getProvider] throw the plain
    [Error("Unknown provider: <name>")], whose [code] is none of the five
    [AuthErrorCode]s; a registered name gives its instance; an inherited
    name gives the inherited value without failing. *)
Theorem getProvider_unknown :
  (forall name,
     has_own providers name = false -> mem name object_prototype_keys = false ->
     getProvider name = Throw (PlainError ("Unknown provider: " ++ name)) /\
     code (PlainError ("Unknown provider: " ++ name)) = None) /\
  (forall name,
     has_own providers name = true -> getProvider name = Ok (get providers name)) /\
  (forall name,
     has_own providers name = false -> mem name object_prototype_keys = true ->
     exists v, getProvider name = Ok v /\ v = object_prototype_get name).
Proof.
  split; [|split].
  - intros name Hown Hmem. split; [|reflexivity].
    unfold getProvider, get, providers, object_prototype_get.
    unfold has_own, providers in Hown. simpl in *.
    destruct (String.eqb name "firebase"); [discriminate|].
    destruct (String.eqb name "supabase"); [discriminate|].
    rewrite Hmem.
    destruct (String.eqb_spec name "__proto__") as [->|_]; [discriminate|].
    reflexivity.
  - intros name Hown. unfold getProvider, get, providers.
    unfold has_own, providers in Hown. simpl in *.
    destruct (String.eqb name "firebase"); [reflexivity|].
    destruct (String.eqb name "supabase"); [reflexivity|discriminate].
  - intros name Hown Hmem. exists (object_prototype_get name). split; [|reflexivity].
    unfold getProvider, get, providers, object_prototype_get.
    unfold has_own, providers in Hown. simpl in *.
    destruct (String.eqb name "firebase"); [discriminate|].
    destruct (String.eqb name "supabase"); [discriminate|].
    rewrite Hmem. destruct (String.eqb name "__proto__"); reflexivity.
Qed.

Lemma getProvider_unknown_witness :
  getProvider "okta" = Throw (PlainError "Unknown provider: okta") /\
  code (PlainError "Unknown provider: okta") = None.
Proof. apply (proj1 getProvider_unknown "okta"); reflexivity. Defined.

End RegistryProps.

(** ** Facts about object spread *)
Module SpreadFacts.
Import InjectAuth.
Local Open Scope list_scope.

Lemma assoc_set_prop ps k k' v :
  assoc k (set_prop ps k' v) = if String.eqb k k' then Some v else assoc k ps.
Proof.
  induction ps as [|[k0 v0] ps IH]; simpl; [reflexivity|].
  destruct (String.eqb_spec k' k0) as [->|Hne]; simpl.
  - destruct (String.eqb k k0); reflexivity.
  - rewrite IH. destruct (String.eqb_spec k k0) as [->|_]; [|reflexivity].
    destruct (String.eqb_spec k0 k') as [->|_]; [contradiction|reflexivity].
Qed.

Lemma assoc_app k l1 l2 :
  assoc k (l1 ++ l2) = match assoc k l1 with Some v => Some v | None => assoc k l2 end.
Proof.
  induction l1 as [|[k0 v0] l1 IH]; simpl; [reflexivity|].
  destruct (String.eqb k k0); [reflexivity|exact IH].
Qed.

Lemma assoc_define_props acc es k :
  assoc k (define_props acc es) =
  match assoc k (rev es) with Some v => Some v | None => assoc k acc end.
Proof.
  revert acc. induction es as [|[k0 v0] es IH]; intros acc; [reflexivity|].
  unfold define_props in *. simpl. rewrite IH, assoc_app, assoc_set_prop. simpl.
  destruct (assoc k (rev es)); [reflexivity|].
  destruct (String.eqb k k0); reflexivity.
Qed.

Lemma assoc_notin k l : ~ In k (map fst l) -> assoc k l = None.
Proof.
  induction l as [|[k0 v0] l IH]; simpl; intros H; [reflexivity|].
  destruct (String.eqb_spec k k0) as [->|_]; [exfalso; auto|].
  apply IH. auto.
Qed.

Lemma assoc_rev k l : NoDup (map fst l) -> assoc k (rev l) = assoc k l.
Proof.
  induction l as [|[k0 v0] l IH]; intros Hnd; [reflexivity|].
  simpl in Hnd. apply NoDup_cons_iff in Hnd as [Hn Hnd].
  simpl. rewrite assoc_app, (IH Hnd). simpl.
  destruct (String.eqb_spec k k0) as [->|_].
  - rewrite (assoc_notin _ _ Hn). reflexivity.
  - destruct (assoc k l); reflexivity.
Qed.

Lemma assoc_spread1 ps k :
  NoDup (map fst ps) -> assoc k (spread_props [Object ps]) = assoc k ps.
Proof.
  intros Hnd. unfold spread_props. simpl.
  rewrite assoc_define_props, (assoc_rev _ _ Hnd). destruct (assoc k ps); reflexivity.
Qed.

Lemma assoc_spread2 pc ov k :
  NoDup (map fst pc) -> NoDup (map fst ov) ->
  assoc k (spread_props [Object pc; Object ov]) =
  match assoc k ov with Some v => Some v | None => assoc k pc end.
Proof.
  intros H1 H2. unfold spread_props. simpl.
  rewrite assoc_define_props, (assoc_rev _ _ H2), assoc_define_props, (assoc_rev _ _ H1).
  destruct (assoc k ov); [reflexivity|]. destruct (assoc k pc); reflexivity.
Qed.

Lemma get_spread2 pc ov k :
  NoDup (map fst pc) -> NoDup (map fst ov) ->
  get (spread [Object pc; Object ov]) k =
  (if has_own (Object ov) k then get (Object ov) k else get (Object pc) k) /\
  has_own (spread [Object pc; Object ov]) k = has_own (Object pc) k || has_own (Object ov) k.
Proof.
  intros H1 H2. unfold spread, get, has_own. rewrite (assoc_spread2 _ _ _ H1 H2).
  destruct (assoc k ov), (assoc k pc); auto.
Qed.

End SpreadFacts.

Module InjectAuthProps.
Import Config InjectAuth SpreadFacts.
Local Open Scope list_scope.

(** C5: the earlier [injectAuth] (src/index.ts) applies the override to
    a provider that is not selected: with provider [firebase] selected,
    its effective configuration also carries the [admin] override merged
    into the inactive [supabase] sub-object. *)
Lemma injectAuth_old_inactive_override_counterexample :
  get ScenarioProfile.config "provider" = Str "firebase" /\
  get ScenarioProfile.supabase_cfg "uid" = Undefined /\
  get (get (injectAuth_old_effective ScenarioProfile.config (Some "admin")) "supabase") "uid"
    = Str "admin-uid".
Proof. split; [|split]; vm_compute; reflexivity. Qed.

Lemma get_old_effective_provider ps o :
  NoDup (map fst ps) ->
  let fb := get (Object ps) "firebase" in
  let sb := get (Object ps) "supabase" in
  let eff := Object (set_prop
                (set_prop (spread_props [Object ps]) "firebase"
                   (if truthy fb then spread [fb; o] else Undefined))
                "supabase"
                (if truthy sb then spread [sb; o] else Undefined)) in
  get eff "provider" = get (Object ps) "provider" /\
  get eff "firebase" = (if truthy fb then spread [fb; o] else Undefined).
Proof.
  intros Hnd fb sb eff. unfold eff, get at 1 3. rewrite !assoc_set_prop. simpl.
  rewrite (assoc_spread1 _ _ Hnd). split; reflexivity.
Qed.

(** In the current [injectAuth], when the active provider's
    configuration and the selected override are objects, the configuration
    handed to [provider.inject] reads, at every key, the override's value
    where the override has the key and the provider configuration's value
    elsewhere, and has exactly the keys of the two; without an override it
    is the provider configuration itself; and it depends on nothing of the
    loaded configuration but [provider], the active provider's
    sub-object and [profiles], so never on another provider's
    configuration. The earlier [injectAuth], which also merges the override
    into the other provider's sub-object of its effective configuration,
    hands on exactly the same configuration for [firebase]. *)
Theorem injectAuth_profile_override :
  (forall config profile name pc ov provider eff,
     get config "provider" = Str name ->
     get config name = Object pc -> NoDup (map fst pc) ->
     profile_override config profile = Some (Object ov) -> NoDup (map fst ov) ->
     injectAuth_args config profile = Ok (provider, eff) ->
     forall k,
       get eff k = (if has_own (Object ov) k then get (Object ov) k else get (Object pc) k) /\
       has_own eff k = has_own (Object pc) k || has_own (Object ov) k) /\
  (forall config profile provider eff,
     profile_override config profile = None ->
     injectAuth_args config profile = Ok (provider, eff) ->
     eff = get config (to_string (get config "provider"))) /\
  (forall config config' profile,
     get config "provider" = get config' "provider" ->
     get config (to_string (get config "provider")) =
       get config' (to_string (get config "provider")) ->
     get config "profiles" = get config' "profiles" ->
     injectAuth_args config profile = injectAuth_args config' profile) /\
  (forall ps profile,
     NoDup (map fst ps) ->
     get (Object ps) "provider" = Str "firebase" ->
     injectAuth_old_arg (Object ps) profile =
       match injectAuth_args (Object ps) profile with
       | Ok (_, X) => Ok X
       | Throw _ => Throw (ConfigInvalidError "firebase 設定が必要です" (Some "firebase"))
       end).
Proof.
  split; [|split; [|split]].
  - intros config profile name pc ov provider eff Hp Hc Hpc Ho Hov H k.
    unfold injectAuth_args in H. rewrite Hp in H. simpl in H.
    destruct (Registry.getProvider name); [|discriminate].
    rewrite Hc in H. simpl in H. rewrite Ho in H. inversion H; subst.
    apply get_spread2; assumption.
  - intros config profile provider eff Ho H.
    unfold injectAuth_args in H. rewrite Ho in H.
    destruct (Registry.getProvider (to_string (get config "provider"))); [|discriminate].
    destruct (truthy (get config (to_string (get config "provider")))); simpl in H;
      [|discriminate].
    inversion H; subst. reflexivity.
  - intros config config' profile H1 H2 H3.
    unfold injectAuth_args, profile_override. rewrite <- H1, H2, H3. reflexivity.
  - intros ps profile Hnd Hp.
    unfold injectAuth_old_arg, injectAuth_old_effective, injectAuth_args.
    rewrite Hp. simpl to_string. cbv zeta.
    change (Registry.getProvider "firebase") with (@Ok value Registry.firebase_provider).
    cbv iota beta.
    destruct (profile_override (Object ps) profile) as [o|].
    + destruct (get_old_effective_provider ps o Hnd) as [Ep Ef].
      rewrite Ep, Hp, Ef. simpl strict_eq_str. cbv iota.
      destruct (truthy (get (Object ps) "firebase")); reflexivity.
    + rewrite Hp. simpl strict_eq_str. cbv iota.
      destruct (truthy (get (Object ps) "firebase")); reflexivity.
Qed.

Lemma injectAuth_profile_override_witness :
  injectAuth_args ScenarioProfile.config (Some "admin") =
    Ok (Registry.firebase_provider,
        Object [("serviceAccount", Str "{}"); ("apiKey", Str "K"); ("uid", Str "admin-uid")]) /\
  get (Object [("serviceAccount", Str "{}"); ("apiKey", Str "K"); ("uid", Str "admin-uid")])
      "apiKey" =
    (if has_own ScenarioProfile.admin_override "apiKey"
     then get ScenarioProfile.admin_override "apiKey"
     else get ScenarioProfile.firebase_cfg "apiKey").
Proof.
  split; [vm_compute; reflexivity|].
  assert (Hnd1 : NoDup (map fst [("serviceAccount", Str "{}"); ("apiKey", Str "K");
                                  ("uid", Str "u1")]))
    by (repeat constructor; simpl; intuition discriminate).
  assert (Hnd2 : NoDup (map fst [("uid", Str "admin-uid")]))
    by (repeat constructor; simpl; intuition discriminate).
  exact (proj1 (proj1 injectAuth_profile_override ScenarioProfile.config (Some "admin")
                  "firebase"
                  [("serviceAccount", Str "{}"); ("apiKey", Str "K"); ("uid", Str "u1")]
                  [("uid", Str "admin-uid")]
                  Registry.firebase_provider
                  (Object [("serviceAccount", Str "{}"); ("apiKey", Str "K");
                           ("uid", Str "admin-uid")])
                  eq_refl eq_refl Hnd1 ltac:(vm_compute; reflexivity) Hnd2
                  ltac:(vm_compute; reflexivity) "apiKey")).
Defined.

End InjectAuthProps.

Module ValidatorFacts.
Import FirebaseValidate Config FirebaseValidateProps.
Local Open Scope list_scope.

Lemma not_string_field v :
  not_string v = match string_field v with Some _ => false | None => true end.
Proof.
  destruct v as [| |[]|[z|]|s| | |]; unfold not_string, string_field; simpl;
    try destruct (Z.eqb z 0); try destruct (String.eqb s ""); reflexivity.
Qed.

Lemma not_string_false v : not_string v = false <-> exists s, v = Str s /\ s <> "".
Proof.
  rewrite not_string_field. split.
  - destruct (string_field v) as [s|] eqn:E; [|discriminate].
    intros _. exists s. exact (string_field_Some _ _ E).
  - intros (s & -> & Hs). unfold string_field. simpl.
    apply String.eqb_neq in Hs. rewrite Hs. reflexivity.
Qed.

Lemma strict_eq_str_true v s : strict_eq_str v s = true -> v = Str s.
Proof.
  destruct v; simpl; try discriminate. intros H. apply String.eqb_eq in H. subst. reflexivity.
Qed.

(** The two Firebase validators fail on the same inputs, naming the same field. *)
Lemma firebase_validators_agree v :
  ((exists cfg, FirebaseValidate.validateConfig v = Ok cfg) /\
   validateFirebaseConfig v = Ok tt) \/
  (exists m m' f, FirebaseValidate.validateConfig v = Throw (ConfigInvalidError m f) /\
                  validateFirebaseConfig v = Throw (ConfigInvalidError m' f)).
Proof.
  unfold FirebaseValidate.validateConfig, validateFirebaseConfig.
  change (negb (truthy v) || negb (String.eqb (typeof v) "object")) with (not_object v).
  rewrite !not_string_field.
  destruct (not_object v); [right; eauto|]. cbv zeta.
  destruct (string_field (get v "serviceAccount")); [|right; eauto].
  destruct (string_field (get v "apiKey")); [|right; eauto].
  destruct (string_field (get v "uid")); [|right; eauto].
  left. eauto.
Qed.

Lemma supabase_validators_agree v :
  ((exists cfg, Supabase.validateConfig v = Ok cfg) /\
   validateSupabaseConfig v = Ok tt) \/
  (exists m m' f, Supabase.validateConfig v = Throw (ConfigInvalidError m f) /\
                  validateSupabaseConfig v = Throw (ConfigInvalidError m' f)).
Proof.
  unfold Supabase.validateConfig, validateSupabaseConfig.
  change (negb (truthy v) || negb (String.eqb (typeof v) "object")) with (not_object v).
  rewrite !not_string_field.
  destruct (not_object v); [right; eauto|]. cbv zeta.
  destruct (FirebaseValidate.string_field (get v "url")); [|right; eauto].
  destruct (FirebaseValidate.string_field (get v "anonKey")); [|right; eauto].
  destruct (FirebaseValidate.string_field (get v "email")); [|right; eauto].
  destruct (FirebaseValidate.string_field (get v "password")); [|right; eauto].
  left. eauto.
Qed.

Definition has_strings (x : value) (ks : list string) : Prop :=
  forall k, In k ks -> exists s, get x k = Str s /\ s <> "".

Lemma validateFirebaseConfig_Ok x :
  validateFirebaseConfig x = Ok tt <->
  not_object x = false /\ has_strings x ["serviceAccount"; "apiKey"; "uid"].
Proof.
  unfold validateFirebaseConfig, has_strings.
  destruct (not_object x); [split; [discriminate|intros [H _]; discriminate]|].
  split.
  - destruct (not_string (get x "serviceAccount")) eqn:E1; [discriminate|].
    destruct (not_string (get x "apiKey")) eqn:E2; [discriminate|].
    destruct (not_string (get x "uid")) eqn:E3; [discriminate|].
    intros _. split; [reflexivity|].
    intros k Hk; simpl in Hk. apply not_string_false.
    destruct Hk as [<-|[<-|[<-|[]]]]; assumption.
  - intros [_ H].
    rewrite (proj2 (not_string_false _) (H "serviceAccount" ltac:(simpl; auto))),
            (proj2 (not_string_false _) (H "apiKey" ltac:(simpl; auto))),
            (proj2 (not_string_false _) (H "uid" ltac:(simpl; auto))).
    reflexivity.
Qed.

Lemma validateSupabaseConfig_Ok x :
  validateSupabaseConfig x = Ok tt <->
  not_object x = false /\ has_strings x ["url"; "anonKey"; "email"; "password"].
Proof.
  unfold validateSupabaseConfig, has_strings.
  destruct (not_object x); [split; [discriminate|intros [H _]; discriminate]|].
  split.
  - destruct (not_string (get x "url")) eqn:E1; [discriminate|].
    destruct (not_string (get x "anonKey")) eqn:E2; [discriminate|].
    destruct (not_string (get x "email")) eqn:E3; [discriminate|].
    destruct (not_string (get x "password")) eqn:E4; [discriminate|].
    intros _. split; [reflexivity|].
    intros k Hk; simpl in Hk. apply not_string_false.
    destruct Hk as [<-|[<-|[<-|[<-|[]]]]]; assumption.
  - intros [_ H].
    rewrite (proj2 (not_string_false _) (H "url" ltac:(simpl; auto))),
            (proj2 (not_string_false _) (H "anonKey" ltac:(simpl; auto))),
            (proj2 (not_string_false _) (H "email" ltac:(simpl; auto))),
            (proj2 (not_string_false _) (H "password" ltac:(simpl; auto))).
    reflexivity.
Qed.

Lemma validateFirebaseConfig_Throw x e :
  validateFirebaseConfig x = Throw e ->
  exists m f, e = ConfigInvalidError m (Some f) /\
    In f ["firebase"; "firebase.serviceAccount"; "firebase.apiKey"; "firebase.uid"].
Proof.
  unfold validateFirebaseConfig.
  destruct (not_object x); [intros H; inversion H; subst; eexists _, _; split; [reflexivity|simpl; tauto]|].
  destruct (not_string (get x "serviceAccount")); [intros H; inversion H; subst; eexists _, _; split; [reflexivity|simpl; tauto]|].
  destruct (not_string (get x "apiKey")); [intros H; inversion H; subst; eexists _, _; split; [reflexivity|simpl; tauto]|].
  destruct (not_string (get x "uid")); [intros H; inversion H; subst; eexists _, _; split; [reflexivity|simpl; tauto]|].
  discriminate.
Qed.

Lemma validateSupabaseConfig_Throw x e :
  validateSupabaseConfig x = Throw e ->
  exists m f, e = ConfigInvalidError m (Some f) /\
    In f ["supabase"; "supabase.url"; "supabase.anonKey"; "supabase.email";
          "supabase.password"].
Proof.
  unfold validateSupabaseConfig.
  destruct (not_object x); [intros H; inversion H; subst; eexists _, _; split; [reflexivity|simpl; tauto]|].
  destruct (not_string (get x "url")); [intros H; inversion H; subst; eexists _, _; split; [reflexivity|simpl; tauto]|].
  destruct (not_string (get x "anonKey")); [intros H; inversion H; subst; eexists _, _; split; [reflexivity|simpl; tauto]|].
  destruct (not_string (get x "email")); [intros H; inversion H; subst; eexists _, _; split; [reflexivity|simpl; tauto]|].
  destruct (not_string (get x "password")); [intros H; inversion H; subst; eexists _, _; split; [reflexivity|simpl; tauto]|].
  discriminate.
Qed.

Lemma validateConfig_Throw_invalid c e :
  validateConfig c = Throw e -> exists m f, e = ConfigInvalidError m f.
Proof.
  unfold validateConfig. cbv zeta.
  destruct (not_object c); [intros H; inversion H; eauto|].
  destruct (strict_eq_str (get c "provider") "firebase") eqn:F.
  - apply strict_eq_str_true in F. rewrite F. simpl. intros H.
    destruct (validateFirebaseConfig_Throw _ _ H) as (m & f & -> & _). eauto.
  - destruct (strict_eq_str (get c "provider") "supabase") eqn:S.
    + apply strict_eq_str_true in S. rewrite S. simpl. intros H.
      destruct (validateSupabaseConfig_Throw _ _ H) as (m & f & -> & _). eauto.
    + destruct (truthy (get c "provider")); simpl; intros H; inversion H; eauto.
Qed.

End ValidatorFacts.

Module ConfigValidateProps.
Import Config ValidatorFacts.
Local Open Scope list_scope.

(** [validateConfig] of [src/config.ts] accepts exactly the objects whose
    [provider] is the string ['firebase'] with an object [firebase] whose
    [serviceAccount], [apiKey] and [uid] are non-empty strings, or the
    string ['supabase'] with an object [supabase] whose [url], [anonKey],
    [email] and [password] are non-empty strings; the other provider's
    sub-object is never looked at. *)
Theorem validateConfig_accepts :
  forall c,
    validateConfig c = Ok tt <->
    not_object c = false /\
    ((get c "provider" = Str "firebase" /\ not_object (get c "firebase") = false /\
      has_strings (get c "firebase") ["serviceAccount"; "apiKey"; "uid"]) \/
     (get c "provider" = Str "supabase" /\ not_object (get c "supabase") = false /\
      has_strings (get c "supabase") ["url"; "anonKey"; "email"; "password"])).
Proof.
  intros c. unfold validateConfig. cbv zeta.
  destruct (not_object c); [split; [discriminate|intros [H _]; discriminate]|].
  destruct (strict_eq_str (get c "provider") "firebase") eqn:F.
  - apply strict_eq_str_true in F. rewrite F. simpl.
    rewrite validateFirebaseConfig_Ok. split.
    + intros [H1 H2]. split; [reflexivity|left; auto].
    + intros [_ [(_ & H1 & H2)|(H & _)]]; [auto|discriminate].
  - destruct (strict_eq_str (get c "provider") "supabase") eqn:S.
    + apply strict_eq_str_true in S. rewrite S. simpl.
      rewrite validateSupabaseConfig_Ok. split.
      * intros [H1 H2]. split; [reflexivity|right; auto].
      * intros [_ [(H & _)|(_ & H1 & H2)]]; [discriminate|auto].
    + simpl.
      assert (Hn : ~ (get c "provider" = Str "firebase" \/ get c "provider" = Str "supabase")).
      { intros [H|H]; rewrite H in *; simpl in *; discriminate. }
      destruct (truthy (get c "provider")); simpl;
        (split; [discriminate|intros [_ [(H & _)|(H & _)]]; exfalso; apply Hn; auto]).
Qed.

End ConfigValidateProps.

Module ValidateMore.
Import Config ValidatorFacts.
Local Open Scope list_scope.

(** Every error of [validateConfig] in [src/config.ts] is a
    [ConfigInvalidError], and its [field] tells where the input is wrong: no
    field when the config is not an object, ['provider'] when the provider is
    neither ['firebase'] nor ['supabase'], and otherwise a field under
    ['firebase'] or ['supabase'], matching the provider that was chosen. *)
Theorem validateConfig_error_fields :
  forall c e,
    validateConfig c = Throw e ->
    exists m f, e = ConfigInvalidError m f /\
      ((not_object c = true /\ f = None) \/
       (not_object c = false /\ get c "provider" <> Str "firebase" /\
        get c "provider" <> Str "supabase" /\ f = Some "provider") \/
       (get c "provider" = Str "firebase" /\
        exists g, f = Some g /\
          In g ["firebase"; "firebase.serviceAccount"; "firebase.apiKey"; "firebase.uid"]) \/
       (get c "provider" = Str "supabase" /\
        exists g, f = Some g /\
          In g ["supabase"; "supabase.url"; "supabase.anonKey"; "supabase.email";
                "supabase.password"])).
Proof.
  intros c e. unfold validateConfig. cbv zeta.
  destruct (not_object c) eqn:Eo.
  { intros H; inversion H; subst. eexists _, _; split; [reflexivity|left; auto]. }
  destruct (strict_eq_str (get c "provider") "firebase") eqn:F.
  - apply strict_eq_str_true in F. rewrite F. simpl. intros H.
    destruct (validateFirebaseConfig_Throw _ _ H) as (m & f & -> & Hf).
    eexists _, _; split; [reflexivity|]. right; right; left; eauto.
  - destruct (strict_eq_str (get c "provider") "supabase") eqn:S.
    + apply strict_eq_str_true in S. rewrite S. simpl. intros H.
      destruct (validateSupabaseConfig_Throw _ _ H) as (m & f & -> & Hf).
      eexists _, _; split; [reflexivity|]. right; right; right; eauto.
    + assert (N1 : get c "provider" <> Str "firebase")
        by (intros Hp; rewrite Hp in F; discriminate).
      assert (N2 : get c "provider" <> Str "supabase")
        by (intros Hp; rewrite Hp in S; discriminate).
      simpl. destruct (truthy (get c "provider")); simpl; intros H; inversion H; subst;
        (eexists _, _; split; [reflexivity|right; left; auto]).
Qed.

Lemma validateConfig_error_fields_witness :
  exists m f,
    ConfigInvalidError "firebase 設定が必要です" (Some "firebase") = ConfigInvalidError m f /\
    ((not_object (Object [("provider", Str "firebase")]) = true /\ f = None) \/
     (not_object (Object [("provider", Str "firebase")]) = false /\
      get (Object [("provider", Str "firebase")]) "provider" <> Str "firebase" /\
      get (Object [("provider", Str "firebase")]) "provider" <> Str "supabase" /\
      f = Some "provider") \/
     (get (Object [("provider", Str "firebase")]) "provider" = Str "firebase" /\
      exists g, f = Some g /\
        In g ["firebase"; "firebase.serviceAccount"; "firebase.apiKey"; "firebase.uid"]) \/
     (get (Object [("provider", Str "firebase")]) "provider" = Str "supabase" /\
      exists g, f = Some g /\
        In g ["supabase"; "supabase.url"; "supabase.anonKey"; "supabase.email";
              "supabase.password"])).
Proof.
  exact (validateConfig_error_fields (Object [("provider", Str "firebase")]) _ eq_refl).
Defined.

(** [validateFirebaseConfig] of [src/config.ts] and
    [FirebaseAuthProvider.validateConfig] accept the same inputs; on the
    others both throw a [ConfigInvalidError] naming the same field. *)
Theorem firebase_validators_agree_on_failure :
  forall v,
    ((exists cfg, FirebaseValidate.validateConfig v = Ok cfg) /\
     validateFirebaseConfig v = Ok tt) \/
    (exists m m' f, FirebaseValidate.validateConfig v = Throw (ConfigInvalidError m f) /\
                    validateFirebaseConfig v = Throw (ConfigInvalidError m' f)).
Proof. exact firebase_validators_agree. Qed.

(** [validateSupabaseConfig] of [src/config.ts] and
    [SupabaseAuthProvider.validateConfig] accept the same inputs; on the
    others both throw a [ConfigInvalidError] naming the same field. *)
Theorem supabase_validators_agree_on_failure :
  forall v,
    ((exists cfg, Supabase.validateConfig v = Ok cfg) /\
     validateSupabaseConfig v = Ok tt) \/
    (exists m m' f, Supabase.validateConfig v = Throw (ConfigInvalidError m f) /\
                    validateSupabaseConfig v = Throw (ConfigInvalidError m' f)).
Proof. exact supabase_validators_agree. Qed.

(** [SupabaseAuthProvider.validateConfig] either returns the input's
    [url], [anonKey], [email] and [password], each a non-empty string of an
    object input, or throws a [ConfigInvalidError] whose field is
    ['supabase'] or one of the four ['supabase.*'] fields. *)
Theorem supabase_validateConfig_cases :
  forall v,
    (exists cfg, Supabase.validateConfig v = Ok cfg /\
       FirebaseValidateProps.is_object v = true /\
       get v "url" = Str (Supabase.url cfg) /\
       get v "anonKey" = Str (Supabase.anonKey cfg) /\
       get v "email" = Str (Supabase.email cfg) /\
       get v "password" = Str (Supabase.password cfg) /\
       Supabase.url cfg <> "" /\ Supabase.anonKey cfg <> "" /\
       Supabase.email cfg <> "" /\ Supabase.password cfg <> "") \/
    (exists m f, Supabase.validateConfig v = Throw (ConfigInvalidError m (Some f)) /\
       In f ["supabase"; "supabase.url"; "supabase.anonKey"; "supabase.email";
             "supabase.password"]).
Proof.
  intros v. unfold Supabase.validateConfig, FirebaseValidateProps.is_object.
  destruct (negb (truthy v) || negb (String.eqb (typeof v) "object")) eqn:Eo.
  { right. eexists _, _; split; [reflexivity|simpl; tauto]. }
  assert (Hobj : truthy v && String.eqb (typeof v) "object" = true).
  { destruct (truthy v), (String.eqb (typeof v) "object"); simpl in *; congruence. }
  cbv zeta.
  destruct (FirebaseValidate.string_field (get v "url")) as [u|] eqn:E1;
    [|right; eexists _, _; split; [reflexivity|simpl; tauto]].
  destruct (FirebaseValidate.string_field (get v "anonKey")) as [ak|] eqn:E2;
    [|right; eexists _, _; split; [reflexivity|simpl; tauto]].
  destruct (FirebaseValidate.string_field (get v "email")) as [em|] eqn:E3;
    [|right; eexists _, _; split; [reflexivity|simpl; tauto]].
  destruct (FirebaseValidate.string_field (get v "password")) as [pw|] eqn:E4;
    [|right; eexists _, _; split; [reflexivity|simpl; tauto]].
  left. eexists; split; [reflexivity|]. simpl.
  apply FirebaseValidateProps.string_field_Some in E1 as [? ?], E2 as [? ?],
    E3 as [? ?], E4 as [? ?].
  repeat split; auto.
Qed.

(** The registry-based [validateConfig] (unnamed/part_002, which looks the
    provider up with [getProvider] and calls its [validateConfig]) and
    [validateConfig] of [src/config.ts] accept the same configs; on the
    others both throw a [ConfigInvalidError] with the same field. *)
Theorem validateConfig_v2_agrees :
  forall c,
    (ConfigV2.validateConfig c = Ok tt /\ validateConfig c = Ok tt) \/
    (exists m m' f, ConfigV2.validateConfig c = Throw (ConfigInvalidError m f) /\
                    validateConfig c = Throw (ConfigInvalidError m' f)).
Proof.
  intros c. unfold ConfigV2.validateConfig, validateConfig. cbv zeta.
  destruct (not_object c); [right; eauto 6|].
  destruct (strict_eq_str (get c "provider") "firebase") eqn:F.
  - apply strict_eq_str_true in F. rewrite F. simpl.
    unfold ConfigV2.provider_validateConfig. simpl.
    destruct (firebase_validators_agree (get c "firebase"))
      as [[[cfg H1] H2]|(m & m' & f & H1 & H2)]; rewrite H1, H2;
        first [left; split; reflexivity | right; eauto 6].
  - destruct (strict_eq_str (get c "provider") "supabase") eqn:S.
    + apply strict_eq_str_true in S. rewrite S. simpl.
      unfold ConfigV2.provider_validateConfig. simpl.
      destruct (supabase_validators_agree (get c "supabase"))
        as [[[cfg H1] H2]|(m & m' & f & H1 & H2)]; rewrite H1, H2;
        first [left; split; reflexivity | right; eauto 6].
    + simpl. destruct (truthy (get c "provider")); simpl; right; eauto 6.
Qed.

End ValidateMore.

Module InjectMore.
Import MonadFacts Firebase FirebaseValidate FirebaseFacts PipelineFacts AdminFlagFacts.
Local Open Scope list_scope.

(** The collaborators [E] with [page.goto] replaced by [g]. *)
Definition with_goto (E : env) (g : string -> option string) : env :=
  {| json_parse := json_parse E; initialize_app := initialize_app E;
     create_custom_token := create_custom_token E; fetch := fetch E;
     get_user := get_user E; date_parse := date_parse E;
     add_init_script := add_init_script E; goto := g;
     wait_for_timeout := wait_for_timeout E;
     exists_sync := exists_sync E; import_module := import_module E;
     path_resolve := path_resolve E; path_to_file_url := path_to_file_url E |}.

Lemma bind_ext {A B} (m m' : M A) (k k' : A -> M B) :
  (forall w, m w = m' w) -> (forall a w, k a w = k' a w) ->
  forall w, bind m k w = bind m' k' w.
Proof.
  intros Hm Hk w. unfold bind. rewrite Hm. destruct (m' w) as [[a|e] w1]; auto.
Qed.

Lemma goto_step E w :
  try_catch (call_unit (EvGoto "/") (goto E "/")) (fun _ => ret tt) w =
  (Ok tt, after (EvGoto "/") w).
Proof. unfold try_catch, call_unit, call, bind, emit, throw, ret. destruct (goto E "/"); reflexivity. Qed.

(** [FirebaseAuthProvider.inject] catches every failure of
    [page.goto('/')]: its result and final world do not depend on what
    [goto] does. *)
Theorem inject_ignores_goto :
  forall E g cfg opts w, inject (with_goto E g) cfg opts w = inject E cfg opts w.
Proof.
  intros E g cfg opts w. unfold inject. cbv zeta. revert w.
  repeat (apply bind_ext;
          [intros ?; first [reflexivity | rewrite !goto_step; reflexivity]
          |intros ? ?; cbv beta]).
  reflexivity.
Qed.

Lemma initializeAdmin_Ok_flag E s w w1 :
  initializeAdmin E s w = (Ok tt, w1) -> adminInitialized w1 = true.
Proof.
  unfold initializeAdmin, try_catch, bind, get_world, call_unit, call, emit,
    set_adminInitialized, throw, ret.
  destruct (adminInitialized w) eqn:Hw; [intros H; inversion H; subst; exact Hw|].
  destruct (json_parse E s) as [m|v]; cbn; [intros H; discriminate|].
  destruct (initialize_app E v); cbn; intros H; inversion H; subst; reflexivity.
Qed.

Lemma FlagMono_steps E :
  (forall ct, FlagMono (createCustomToken E ct)) /\
  (forall ct ak, FlagMono (exchangeCustomToken E ct ak)) /\
  (forall u, FlagMono (getUserRecord E u)).
Proof.
  split; [|split]; intros;
    unfold createCustomToken, exchangeCustomToken, fetch_call, getUserRecord; cbv zeta;
    solve_flag.
Qed.

(** When [FirebaseAuthProvider.inject] succeeds, its last three page calls
    are [addInitScript] with the auth data (stored under the key built from
    [apiKey], for the configured [uid]), [goto('/')], then
    [waitForTimeout(waitAfter ?? 2000)]; the init script was accepted and
    the Admin SDK is marked initialised. *)
Theorem inject_success_tail :
  forall E cfg opts w w',
    inject E cfg opts w = (Ok tt, w') ->
    exists d rest,
      trace w' = EvWaitForTimeout (match waitAfter opts with Some n => n | None => 2000%Z end)
                 :: EvGoto "/" :: EvAddInitScript d :: rest /\
      add_init_script E d = None /\
      fbase_key d = storage_key (apiKey cfg) /\
      FirebaseAuthUser.uid (value_ d) = uid cfg /\
      adminInitialized w' = true.
Proof.
  intros E cfg opts w w' H.
  unfold inject in H. cbv zeta in H.
  apply bind_Ok in H as ([] & w1 & H1 & H).
  apply bind_Ok in H as (ct & w2 & H2 & H).
  apply bind_Ok in H as (tr & w3 & H3 & H).
  apply bind_Ok in H as (ur & w4 & H4 & H).
  apply bind_Ok in H as (d & w5 & H5 & H).
  apply bind_Ok in H as ([] & w6 & H6 & H).
  apply bind_Ok in H as ([] & w7 & H7 & H).
  apply createAuthData_Ok in H5 as (_ & -> & ->).
  apply try_catch_Ok in H6 as [H6|(e & w8 & _ & H6)]; [|discriminate].
  apply call_unit_Ok in H6 as [Hadd ->].
  rewrite goto_step in H7. injection H7 as <-.
  apply call_unit_Ok in H as [_ ->].
  destruct (FlagMono_steps E) as (F2 & F3 & F4).
  pose proof (initializeAdmin_Ok_flag _ _ _ _ H1) as Hf1.
  pose proof (F2 _ _ _ _ H2 Hf1) as Hf2.
  pose proof (F3 _ _ _ _ _ H3 Hf2) as Hf3.
  pose proof (F4 _ _ _ _ H4 Hf3) as Hf4.
  eexists _, _. split; [reflexivity|].
  split; [exact Hadd|]. split; [reflexivity|]. split; [reflexivity|]. exact Hf4.
Qed.

Lemma inject_success_tail_witness :
  exists d rest,
    trace (snd (inject ScenarioA.mock_env ScenarioA.config ScenarioA.options
                       ScenarioA.world0)) =
      EvWaitForTimeout 2000 :: EvGoto "/" :: EvAddInitScript d :: rest /\
    add_init_script ScenarioA.mock_env d = None /\
    fbase_key d = storage_key "K" /\
    FirebaseAuthUser.uid (value_ d) = "u1" /\
    adminInitialized (snd (inject ScenarioA.mock_env ScenarioA.config ScenarioA.options
                                  ScenarioA.world0)) = true.
Proof.
  exact (inject_success_tail ScenarioA.mock_env ScenarioA.config ScenarioA.options
           ScenarioA.world0 _ ltac:(vm_compute; reflexivity)).
Defined.

(** An [INJECTION_FAILED] error of [FirebaseAuthProvider.inject] only comes
    from [addInitScript]: it is the last call made, it failed with some
    message [msg], the error is the [InjectionError] carrying
    ['Failed to add IndexedDB injection script: ' + msg], and the script held
    the auth data under the key built from [apiKey]. *)
Theorem inject_injection_error :
  forall E cfg opts w e w',
    inject E cfg opts w = (Throw e, w') ->
    code e = Some INJECTION_FAILED ->
    exists d msg rest,
      trace w' = EvAddInitScript d :: rest /\
      add_init_script E d = Some msg /\
      e = InjectionError ("Failed to add IndexedDB injection script: " ++ msg) /\
      fbase_key d = storage_key (apiKey cfg).
Proof.
  intros E cfg opts w e w' H Hc.
  unfold inject in H. cbv zeta in H.
  apply bind_Throw in H as [H0|(u1 & w1 & H1 & H)].
  { destruct (StepRun_initializeAdmin E (uid cfg) _ _ _ _ H0) as (l0 & T0 & F0 & Er).
    pose proof (Er e eq_refl) as Hs; simpl in Hs; destruct Hs as [m Hm]. rewrite Hm in Hc. discriminate. }
  apply bind_Throw in H as [H0|(ct & w2 & H2 & H)].
  { destruct (StepRun_createCustomToken E (uid cfg) _ _ _ H0) as (l0 & T0 & F0 & Er).
    pose proof (Er e eq_refl) as Hs; simpl in Hs; destruct Hs as [m Hm]. rewrite Hm in Hc. discriminate. }
  apply bind_Throw in H as [H0|(tr & w3 & H3 & H)].
  { destruct (StepRun_exchangeCustomToken E (uid cfg) _ _ _ _ _ H0) as (l0 & T0 & F0 & Er).
    pose proof (Er e eq_refl) as Hs; simpl in Hs; destruct Hs as (m & s & Hm). rewrite Hm in Hc. discriminate. }
  apply bind_Throw in H as [H0|(ur & w4 & H4 & H)].
  { destruct (StepRun_getUserRecord E (uid cfg) _ _ _ H0) as (l0 & T0 & F0 & Er).
    pose proof (Er e eq_refl) as Hs; simpl in Hs; destruct Hs as [m Hm]. rewrite Hm in Hc. discriminate. }
  apply bind_Throw in H as [H0|(d & w5 & H5 & H)].
  { apply createAuthData_Throw in H0 as (_ & -> & _). discriminate Hc. }
  apply createAuthData_Ok in H5 as (_ & -> & ->).
  apply bind_Throw in H as [H0|(u6 & w6 & H6 & H)].
  - unfold try_catch, call_unit, call, bind, emit, throw, ret in H0.
    destruct (add_init_script E _) as [msg|] eqn:Ha; [|discriminate].
    injection H0 as <- <-. eexists _, msg, _. split; [reflexivity|].
    split; [exact Ha|]. split; reflexivity.
  - apply bind_Throw in H as [H0|(u7 & w7 & H7 & H)].
    + rewrite goto_step in H0. discriminate.
    + unfold call_unit in H. rewrite call_eq in H.
      destruct (wait_for_timeout E _); inversion H; subst; discriminate Hc.
Qed.

Lemma inject_injection_error_witness :
  exists d msg rest,
    trace (snd (inject ScenarioPageClosed.env_closed ScenarioA.config ScenarioA.options
                       ScenarioA.world0)) = EvAddInitScript d :: rest /\
    add_init_script ScenarioPageClosed.env_closed d = Some msg /\
    InjectionError "Failed to add IndexedDB injection script: Target page, context or browser has been closed"
      = InjectionError ("Failed to add IndexedDB injection script: " ++ msg) /\
    fbase_key d = storage_key "K".
Proof.
  exact (inject_injection_error ScenarioPageClosed.env_closed ScenarioA.config
           ScenarioA.options ScenarioA.world0 _ _ ltac:(vm_compute; reflexivity) eq_refl).
Defined.

End InjectMore.

Module NumberFacts.
Local Open Scope Z_scope.

Lemma digits_value_app a s t :
  digits_value a (s ++ t) = digits_value (digits_value a s) t.
Proof. revert a. induction s as [|c s IH]; intros a; simpl; auto. Qed.

Lemma all_digits_app s t :
  all_digits s = true -> all_digits t = true -> all_digits (s ++ t) = true.
Proof.
  induction s as [|c s IH]; simpl; auto.
  intros H Ht. apply andb_true_iff in H as [Hc Hs]. rewrite Hc, (IH Hs Ht). reflexivity.
Qed.

Lemma digit_prefix_all s : all_digits s = true -> digit_prefix s = s.
Proof.
  induction s as [|c s IH]; simpl; auto.
  intros H. apply andb_true_iff in H as [Hc Hs]. rewrite Hc, (IH Hs). reflexivity.
Qed.

Lemma digit_char_spec d :
  0 <= d < 10 -> is_digit (digit_char d) = true /\ digit_value (digit_char d) = d.
Proof.
  intros Hd. unfold is_digit, digit_value, digit_char.
  rewrite nat_ascii_embedding by lia.
  split.
  - apply andb_true_iff; split; apply Nat.leb_le; lia.
  - rewrite Nat.add_comm, Nat.add_sub. apply Z2Nat.id. lia.
Qed.

Lemma append_assoc' (a b c : string) : ((a ++ b) ++ c)%string = (a ++ (b ++ c))%string.
Proof. induction a as [|x a IH]; simpl; [reflexivity|now rewrite IH]. Qed.

Lemma nat_digits_spec fuel : forall n acc,
  (fuel <> 0)%nat -> 0 <= n < 10 ^ Z.of_nat fuel ->
  exists s, nat_digits fuel n acc = (s ++ acc)%string /\ all_digits s = true /\
            s <> ""%string /\ digits_value 0 s = n.
Proof.
  induction fuel as [|f IH]; intros n acc Hf Hn; [contradiction|].
  cbn [nat_digits].
  assert (Hm : 0 <= n mod 10 < 10) by (apply Z.mod_pos_bound; lia).
  destruct (digit_char_spec _ Hm) as [Hdig Hval].
  destruct (Z.eqb_spec (n / 10) 0) as [Hq|Hq].
  - exists (String (digit_char (n mod 10)) EmptyString).
    split; [reflexivity|].
    split; [cbn [all_digits]; rewrite Hdig; reflexivity|].
    split; [discriminate|].
    cbn [digits_value]. rewrite Hval.
    pose proof (Z.div_mod n 10 ltac:(lia)). lia.
  - destruct f as [|f'].
    { exfalso. assert (n / 10 = 0) by (apply Z.div_small; cbn in Hn; lia). contradiction. }
    assert (Hq' : 0 <= n / 10 < 10 ^ Z.of_nat (S f')).
    { split; [apply Z.div_pos; lia|].
      apply Z.div_lt_upper_bound; [lia|].
      rewrite Nat2Z.inj_succ in Hn. rewrite Z.pow_succ_r in Hn by lia. lia. }
    destruct (IH (n / 10) (String (digit_char (n mod 10)) acc) ltac:(discriminate) Hq')
      as (s & Hs & Ha & Hne & Hv).
    exists (s ++ String (digit_char (n mod 10)) EmptyString)%string.
    rewrite append_assoc'. cbn [append]. split; [exact Hs|].
    split; [apply all_digits_app; [exact Ha|cbn [all_digits]; rewrite Hdig; reflexivity]|].
    split; [destruct s; [contradiction|discriminate]|].
    rewrite digits_value_app, Hv. cbn [digits_value]. rewrite Hval.
    pose proof (Z.div_mod n 10 ltac:(lia)). lia.
Qed.

Lemma z_to_string_digits n :
  0 <= n -> exists s, z_to_string n = s /\ all_digits s = true /\ s <> ""%string /\
                      digits_value 0 s = n.
Proof.
  intros Hn. unfold z_to_string.
  destruct (Z.ltb_spec n 0) as [H|_]; [lia|].
  destruct (nat_digits_spec (S (Z.to_nat (Z.log2 (Z.abs n)))) n "" ltac:(discriminate))
    as (s & Hs & Ha & Hne & Hv).
  - split; [exact Hn|]. rewrite Z.abs_eq by exact Hn.
    rewrite Nat2Z.inj_succ, Z2Nat.id by apply Z.log2_nonneg.
    destruct (Z.eq_dec n 0) as [->|Hn0]; [cbn; lia|].
    destruct (Z.log2_spec n ltac:(lia)) as [_ Hlt].
    eapply Z.lt_le_trans; [exact Hlt|].
    apply Z.pow_le_mono_l. split; [lia|lia].
  - exists s. rewrite Hs. rewrite ConfigFacts.append_empty_r. auto.
Qed.

Lemma parseInt10_digit_head c r :
  is_digit c = true ->
  parseInt10 (Str (String c r)) =
  if String.eqb (digit_prefix (String c r)) "" then NaN
  else Num (1 * digits_value 0 (digit_prefix (String c r))).
Proof.
  destruct c as [[] [] [] [] [] [] [] []]; intros H; try discriminate H; reflexivity.
Qed.

(** [parseInt(String(n), 10) === n] for the non-negative integers. *)
Lemma parseInt10_z_to_string n : 0 <= n -> parseInt10 (Str (z_to_string n)) = Num n.
Proof.
  intros Hn. destruct (z_to_string_digits n Hn) as (s & -> & Ha & Hne & Hv).
  destruct s as [|c r]; [contradiction|].
  pose proof Ha as Ha'. cbn [all_digits] in Ha'. apply andb_true_iff in Ha' as [Hc _].
  rewrite (parseInt10_digit_head c r Hc), (digit_prefix_all _ Ha).
  change (String.eqb (String c r) "") with false.
  rewrite Z.mul_1_l, Hv. reflexivity.
Qed.

End NumberFacts.

Module PayloadMore.
Import MonadFacts Firebase FirebaseValidate FirebaseFacts NumberFacts.
Local Open Scope list_scope.

(** [createAuthData] reads the clock once ([Date.now()]). For a clock
    [now] with [0 <= now <= 2^53], [lastLoginAt] parses back to [now]; an
    [expiresIn] that is the decimal string of [n >= 0], with
    [now + n * 1000 <= 2^53] so that the double arithmetic of the source is
    exact, gives the expiration time [now + n * 1000]; and an empty
    [creationTime] makes [createdAt] equal to [lastLoginAt]. *)
Theorem createAuthData_times :
  forall E u ak tr ur w d w',
    createAuthData E u ak tr ur w = (Ok d, w') ->
    (0 <= clock w <= 2 ^ 53)%Z ->
    trace w' = EvDateNow :: trace w /\
    parseInt10 (Str (FirebaseAuthUser.lastLoginAt (value_ d))) = Num (clock w) /\
    (forall n, (0 <= n)%Z -> (clock w + n * 1000 <= 2 ^ 53)%Z ->
       get tr "expiresIn" = Str (z_to_string n) ->
       expirationTime (FirebaseAuthUser.stsTokenManager (value_ d)) =
         Num (clock w + n * 1000)) /\
    (AdminUserRecord.creationTime ur = "" ->
       FirebaseAuthUser.createdAt (value_ d) = FirebaseAuthUser.lastLoginAt (value_ d)).
Proof.
  intros E u ak tr ur w d w' H [Hc _].
  apply createAuthData_Ok in H as (_ & -> & ->).
  split; [reflexivity|]. split; [exact (parseInt10_z_to_string _ Hc)|]. split.
  - intros n Hn _ He. cbn [auth_data_at value_ FirebaseAuthUser.stsTokenManager expirationTime].
    rewrite He, (parseInt10_z_to_string _ Hn). reflexivity.
  - intros Hct. cbn [auth_data_at value_ FirebaseAuthUser.createdAt FirebaseAuthUser.lastLoginAt].
    rewrite Hct. reflexivity.
Qed.

Lemma createAuthData_times_witness :
  trace (snd (createAuthData ScenarioA.mock_env "u1" "K" ScenarioA.tokenResponse
                ScenarioA.profile ScenarioA.world0)) = EvDateNow :: trace ScenarioA.world0 /\
  parseInt10 (Str (FirebaseAuthUser.lastLoginAt
    (value_ (auth_data_at ScenarioA.mock_env "u1" "K" ScenarioA.tokenResponse
               ScenarioA.profile ScenarioA.issuedAtMs)))) = Num ScenarioA.issuedAtMs /\
  (forall n, (0 <= n)%Z -> (ScenarioA.issuedAtMs + n * 1000 <= 2 ^ 53)%Z ->
     get ScenarioA.tokenResponse "expiresIn" = Str (z_to_string n) ->
     expirationTime (FirebaseAuthUser.stsTokenManager
       (value_ (auth_data_at ScenarioA.mock_env "u1" "K" ScenarioA.tokenResponse
                  ScenarioA.profile ScenarioA.issuedAtMs))) =
       Num (ScenarioA.issuedAtMs + n * 1000)) /\
  (AdminUserRecord.creationTime ScenarioA.profile = "" ->
     FirebaseAuthUser.createdAt
       (value_ (auth_data_at ScenarioA.mock_env "u1" "K" ScenarioA.tokenResponse
                  ScenarioA.profile ScenarioA.issuedAtMs)) =
     FirebaseAuthUser.lastLoginAt
       (value_ (auth_data_at ScenarioA.mock_env "u1" "K" ScenarioA.tokenResponse
                  ScenarioA.profile ScenarioA.issuedAtMs))).
Proof.
  exact (createAuthData_times ScenarioA.mock_env "u1" "K" ScenarioA.tokenResponse
           ScenarioA.profile ScenarioA.world0 _ _ eq_refl
           ltac:(split; vm_compute; discriminate)).
Defined.

End PayloadMore.

Module LoadMore.
Import MonadFacts Config ConfigFacts.
Local Open Scope list_scope.

Lemma load_from_Throw E p w e w' :
  load_from E p w = (Throw e, w') ->
  cachedConfig w' = cachedConfig w /\
  ((exists e0, import_module E (path_to_file_url E p) = inl e0 /\
      (((code e0 = Some CONFIG_NOT_FOUND \/ code e0 = Some CONFIG_INVALID) /\ e = e0) \/
       (code e0 <> Some CONFIG_NOT_FOUND /\ code e0 <> Some CONFIG_INVALID /\
        e = ConfigInvalidError ("設定ファイルの読み込みに失敗しました: " ++ message e0) None))) \/
   (exists c, import_module E (path_to_file_url E p) = inr c /\ validateConfig c = Throw e /\
      exists m f, e = ConfigInvalidError m f)).
Proof.
  unfold load_from, try_catch, call_exn, bind, emit, throw, ret, of_outcome, set_cachedConfig.
  cbv zeta. destruct (import_module E (path_to_file_url E p)) as [e0|c]; cbn.
  - destruct e0; cbn; intros H; inversion H; subst; (split; [reflexivity|]); left;
      eexists; (split; [reflexivity|]);
      first [left; split; [first [left; reflexivity|right; reflexivity]|reflexivity]
            |right; split; [discriminate|split; [discriminate|reflexivity]]].
  - destruct (validateConfig c) as [[]|e0] eqn:Hv; cbn; [discriminate|].
    destruct (ValidatorFacts.validateConfig_Throw_invalid c e0 Hv) as (m & f & ->).
    intros H; inversion H; subst. split; [reflexivity|]. right. eauto 6.
Qed.

(** [loadConfig] only throws errors of the codes [CONFIG_NOT_FOUND] and
    [CONFIG_INVALID]; a [ConfigNotFoundError] lists the three candidate
    paths resolved against [cwd], unless the config module found
    threw it itself while being imported. *)
Theorem loadConfig_errors :
  forall E cwd w e w',
    loadConfig E cwd w = (Throw e, w') ->
    (code e = Some CONFIG_NOT_FOUND \/ code e = Some CONFIG_INVALID) /\
    (forall paths, e = ConfigNotFoundError paths ->
       paths = map (path_resolve E cwd) CONFIG_FILE_NAMES \/
       exists p, snd (probe E (map (path_resolve E cwd) CONFIG_FILE_NAMES)) = Some p /\
                 import_module E (path_to_file_url E p) = inl e).
Proof.
  intros E cwd w e w' H.
  assert (Hmiss : cache_miss w).
  { unfold cache_miss. destruct (cachedConfig w) as [c|] eqn:Hc; [|exact I].
    destruct (truthy c) eqn:Ht; [|reflexivity].
    unfold loadConfig, bind, get_world, ret in H. rewrite Hc, Ht in H. discriminate. }
  rewrite (loadConfig_miss E cwd w Hmiss) in H. cbn zeta in H.
  destruct (probe E (map (path_resolve E cwd) CONFIG_FILE_NAMES)) as [t [p|]];
    [destruct (String.eqb p "")|].
  - inversion H; subst. split; [left; reflexivity|].
    intros paths Hp. inversion Hp; subst. left; reflexivity.
  - destruct (load_from_Throw _ _ _ _ _ H)
      as (_ & [(e0 & Hi & [(Hc & ->)|(H1 & H2 & ->)])|(c & Hi & Hv & m & f & ->)]).
    + split; [exact Hc|]. intros paths Hp. right. exists p. split; [reflexivity|exact Hi].
    + split; [right; reflexivity|]. intros paths Hp; discriminate.
    + split; [right; reflexivity|]. intros paths Hp; discriminate.
  - inversion H; subst. split; [left; reflexivity|].
    intros paths Hp. inversion Hp; subst. left; reflexivity.
Qed.

Lemma loadConfig_errors_witness :
  (code (ConfigNotFoundError ["/proj/playwright-auth.config.ts";
                              "/proj/playwright-auth.config.js";
                              "/proj/playwright-auth.config.mjs"]) = Some CONFIG_NOT_FOUND \/
   code (ConfigNotFoundError ["/proj/playwright-auth.config.ts";
                              "/proj/playwright-auth.config.js";
                              "/proj/playwright-auth.config.mjs"]) = Some CONFIG_INVALID) /\
  (forall paths,
     ConfigNotFoundError ["/proj/playwright-auth.config.ts";
                          "/proj/playwright-auth.config.js";
                          "/proj/playwright-auth.config.mjs"] = ConfigNotFoundError paths ->
     paths = map (path_resolve ScenarioA.mock_env "/proj") CONFIG_FILE_NAMES \/
     exists p, snd (probe ScenarioA.mock_env
                      (map (path_resolve ScenarioA.mock_env "/proj") CONFIG_FILE_NAMES))
                 = Some p /\
               import_module ScenarioA.mock_env (path_to_file_url ScenarioA.mock_env p) =
                 inl (ConfigNotFoundError ["/proj/playwright-auth.config.ts";
                                           "/proj/playwright-auth.config.js";
                                           "/proj/playwright-auth.config.mjs"])).
Proof.
  exact (loadConfig_errors ScenarioA.mock_env "/proj" ScenarioA.world0 _
           (snd (loadConfig ScenarioA.mock_env "/proj" ScenarioA.world0))
           ltac:(vm_compute; reflexivity)).
Defined.

(** With no cached config and a config file found at [p], an error [e0]
    thrown while importing it is rethrown unchanged when it is a
    [ConfigNotFoundError] or a [ConfigInvalidError], and otherwise
    wrapped into a [ConfigInvalidError] with the message
    ['設定ファイルの読み込みに失敗しました: ' + e0.message] and no field; a validation error is rethrown
    unchanged; in every case nothing is cached. *)
Theorem loadConfig_load_failure :
  forall E cwd w p,
    cachedConfig w = None ->
    snd (probe E (map (path_resolve E cwd) CONFIG_FILE_NAMES)) = Some p ->
    p <> "" ->
    (forall e0,
       import_module E (path_to_file_url E p) = inl e0 ->
       code e0 <> Some CONFIG_NOT_FOUND -> code e0 <> Some CONFIG_INVALID ->
       fst (loadConfig E cwd w) =
         Throw (ConfigInvalidError ("設定ファイルの読み込みに失敗しました: " ++ message e0) None) /\
       cachedConfig (snd (loadConfig E cwd w)) = None) /\
    (forall e0,
       import_module E (path_to_file_url E p) = inl e0 ->
       (code e0 = Some CONFIG_NOT_FOUND \/ code e0 = Some CONFIG_INVALID) ->
       fst (loadConfig E cwd w) = Throw e0 /\
       cachedConfig (snd (loadConfig E cwd w)) = None) /\
    (forall c e,
       import_module E (path_to_file_url E p) = inr c ->
       validateConfig c = Throw e ->
       fst (loadConfig E cwd w) = Throw e /\
       cachedConfig (snd (loadConfig E cwd w)) = None).
Proof.
  intros E cwd w p Hnone Hp Hne.
  assert (Hm : cache_miss w) by (unfold cache_miss; rewrite Hnone; exact I).
  rewrite (loadConfig_miss E cwd w Hm). cbv zeta.
  destruct (probe E (map (path_resolve E cwd) CONFIG_FILE_NAMES)) as [t f].
  simpl in Hp. subst f. apply String.eqb_neq in Hne. rewrite Hne.
  unfold load_from, try_catch, call_exn, bind, emit, throw, ret, of_outcome, set_cachedConfig.
  cbv zeta. split; [|split].
  - intros e0 Hi H1 H2. rewrite Hi.
    destruct e0; try (exfalso; apply H1; reflexivity); try (exfalso; apply H2; reflexivity);
      split; first [reflexivity|exact Hnone].
  - intros e0 Hi Hc. rewrite Hi.
    destruct e0; destruct Hc as [Hc|Hc]; try discriminate Hc;
      split; first [reflexivity|exact Hnone].
  - intros c e Hi Hv. rewrite Hi. cbn. rewrite Hv. cbn.
    destruct (ValidatorFacts.validateConfig_Throw_invalid c e Hv) as (m & f & ->).
    split; [reflexivity|exact Hnone].
Qed.

Lemma loadConfig_load_failure_witness :
  fst (loadConfig ScenarioLoad.env_js "/proj" ScenarioA.world0) =
    Throw (ConfigInvalidError ("設定ファイルの読み込みに失敗しました: " ++ "Unexpected token 'export'") None) /\
  fst (loadConfig ScenarioLoad.env_throws "/proj" ScenarioA.world0) =
    Throw (ConfigInvalidError "missing key" (Some "firebase.apiKey")).
Proof.
  split.
  - exact (proj1 (proj1 (loadConfig_load_failure ScenarioLoad.env_js "/proj" ScenarioA.world0
                           "/proj/playwright-auth.config.js" eq_refl
                           ltac:(vm_compute; reflexivity) ltac:(discriminate))
                    (PlainError "Unexpected token 'export'") eq_refl
                    ltac:(discriminate) ltac:(discriminate))).
  - exact (proj1 (proj1 (proj2 (loadConfig_load_failure ScenarioLoad.env_throws "/proj"
                                  ScenarioA.world0 "/proj/playwright-auth.config.js" eq_refl
                                  ltac:(vm_compute; reflexivity) ltac:(discriminate)))
                    (ConfigInvalidError "missing key" (Some "firebase.apiKey")) eq_refl
                    (or_intror eq_refl))).
Defined.

(** A config that [loadConfig] returns is either the truthy config already
    cached, returned with the world untouched, or one that was imported from
    the first config file found, passed [validateConfig] and is now cached. *)
Theorem loadConfig_returns_valid :
  forall E cwd w c w',
    loadConfig E cwd w = (Ok c, w') ->
    (cachedConfig w = Some c /\ truthy c = true /\ w' = w) \/
    (exists p, snd (probe E (map (path_resolve E cwd) CONFIG_FILE_NAMES)) = Some p /\
       import_module E (path_to_file_url E p) = inr c /\
       validateConfig c = Ok tt /\ cachedConfig w' = Some c).
Proof.
  intros E cwd w c w' H.
  destruct (cachedConfig w) as [c0|] eqn:Hc;
    [destruct (truthy c0) eqn:Ht|].
  - left. unfold loadConfig, bind, get_world, ret in H. rewrite Hc, Ht in H.
    injection H as <- <-. auto.
  - assert (Hm : cache_miss w) by (unfold cache_miss; rewrite Hc; exact Ht).
    right. rewrite (loadConfig_miss E cwd w Hm) in H. cbv zeta in H.
    destruct (probe E (map (path_resolve E cwd) CONFIG_FILE_NAMES)) as [t [p|]];
      [destruct (String.eqb p "")|]; try discriminate.
    destruct (load_from_run _ _ _ _ _ H) as (_ & Hok & _).
    destruct (Hok c eq_refl) as (Hi & Hv & Hcc). exists p. auto.
  - assert (Hm : cache_miss w) by (unfold cache_miss; rewrite Hc; exact I).
    right. rewrite (loadConfig_miss E cwd w Hm) in H. cbv zeta in H.
    destruct (probe E (map (path_resolve E cwd) CONFIG_FILE_NAMES)) as [t [p|]];
      [destruct (String.eqb p "")|]; try discriminate.
    destruct (load_from_run _ _ _ _ _ H) as (_ & Hok & _).
    destruct (Hok c eq_refl) as (Hi & Hv & Hcc). exists p. auto.
Qed.

Lemma loadConfig_returns_valid_witness :
  (cachedConfig ScenarioA.world0 = Some ScenarioB.valid_config /\
   truthy ScenarioB.valid_config = true /\
   snd (loadConfig ScenarioLoad.env_ok "/proj" ScenarioA.world0) = ScenarioA.world0) \/
  (exists p, snd (probe ScenarioLoad.env_ok
                    (map (path_resolve ScenarioLoad.env_ok "/proj") CONFIG_FILE_NAMES)) = Some p /\
     import_module ScenarioLoad.env_ok (path_to_file_url ScenarioLoad.env_ok p)
       = inr ScenarioB.valid_config /\
     validateConfig ScenarioB.valid_config = Ok tt /\
     cachedConfig (snd (loadConfig ScenarioLoad.env_ok "/proj" ScenarioA.world0))
       = Some ScenarioB.valid_config).
Proof.
  exact (loadConfig_returns_valid ScenarioLoad.env_ok "/proj" ScenarioA.world0
           ScenarioB.valid_config _ ltac:(vm_compute; reflexivity)).
Defined.

End LoadMore.
